(** * ONNXIFI model loader (lib/Importer/ONNXIFILoader.cpp)

    A shallow embedding of the Glow ONNXIFI loader: the type resolver
    [setTensorType], input registration [loadInputs], the weight
    materializer [loadWeight] and its driver [loadWeights], the
    orchestrator [parse] and the single-operator inspector
    [parseOperator], followed by the properties of the loader that the
    specification states.

    Conventions.
    - [size_t] is 64 bits wide (LP64); sizes are [N], signed 64-bit
      integers are [Z], and every conversion to [size_t] writes its
      wrap-around out ([to_size_t]).
    - [assert(false && ...)] and [llvm_unreachable(...)] halt the process:
      they are the [Fatal] outcome of the [Outcome] monad (assertions
      enabled).  A [bool] result is a recoverable success or failure.
    - A C pointer into caller memory ([shape], [buffer]) is a function
      from an element index to the element found there. *)

From stdpp Require Import gmap strings list.

Open Scope Z_scope.

(** ** Outcomes: a returned value, or a fatal halt of the process *)

Inductive Outcome (A : Type) : Type :=
| Ret (a : A)
| Fatal (msg : string).
Arguments Ret {A} a.
Arguments Fatal {A} msg.

#[global] Instance Outcome_ret : MRet Outcome := @Ret.
#[global] Instance Outcome_bind : MBind Outcome :=
  λ A B f m, match m with Ret a => f a | Fatal msg => Fatal msg end.

Definition halted {A} (o : Outcome A) : bool :=
  match o with Ret _ => false | Fatal _ => true end.

(** ** Machine integers *)

Definition size_t_bits : Z := 64.

(** Conversion of a (signed or unsigned) 64-bit integer to [size_t]. *)
Definition to_size_t (z : Z) : N := Z.to_N (z mod 2 ^ size_t_bits).

(** ** The compiler's tensors *)

Inductive ElemKind : Type := FloatTy | IndexTy.

Inductive VisibilityKind : Type := Public | Private.

(** A 32-bit float, kept as its bit pattern: the loader only copies floats. *)
Inductive float32 : Type := F32 (bits : Z).

(** One cell of a tensor's buffer, as seen through [Handle<float>] or
    [Handle<size_t>]. *)
Inductive Elem : Type :=
| FloatElem (f : float32)
| IndexElem (n : N).

Record TensorType : Type := mkType {
  elementType_ : ElemKind;
  sizes_ : list N
}.

(** Modelled from the spec: the class [Tensor] (include/glow/Base/Tensor.h
    is not part of the sources).  A Tensor owns a contiguous element buffer
    sized according to its TensorType: the element count is the product of
    the shape, which [size()] returns as a [size_t]. *)
Record Tensor : Type := mkTensor {
  type_ : TensorType;
  data_ : list Elem
}.

(** The product of a shape, as a number. *)
Definition product (dims : list N) : N := foldr N.mul 1%N dims.

(** Multiplication of two [size_t]. *)
Definition size_t_mul (a b : N) : N := ((a * b) mod 2 ^ 64)%N.

(** The product of a shape, accumulated in a [size_t]. *)
Definition size_t_product (dims : list N) : N := foldl size_t_mul 1%N dims.

(** [Type::size()] *)
Definition Type_size (ty : TensorType) : N := size_t_product (sizes_ ty).

Definition zeroElem (k : ElemKind) : Elem :=
  match k with
  | FloatTy => FloatElem (F32 0)
  | IndexTy => IndexElem 0%N
  end.

(** [new Tensor()]: no shape, no buffer. *)
Definition Tensor_new : Tensor := mkTensor (mkType IndexTy []) [].

(** [T->reset(kind, dims)]: a fresh zeroed buffer of the given type. *)
Definition Tensor_reset (k : ElemKind) (dims : list N) (T : Tensor) : Tensor :=
  mkTensor (mkType k dims)
           (replicate (N.to_nat (size_t_product dims)) (zeroElem k)).

(** [T->getHandle<>().size()] *)
Definition Tensor_size (T : Tensor) : N := Type_size (type_ T).

(** [TH.raw(i) = v].  The loader only calls it with [i < TH.size()]. *)
Definition Handle_raw_set (i : nat) (v : Elem) (T : Tensor) : Tensor :=
  mkTensor (type_ T) (<[i := v]> (data_ T)).

(** ** ONNX protocol messages (onnx.pb.h), the fields the loader reads *)

(** [TensorProto::DataType] tags. *)
Definition TensorProto_FLOAT : Z := 1.
Definition TensorProto_INT64 : Z := 7.

Record Dimension : Type := mkDimension { dim_value : Z }.
Record TensorShapeProto : Type := mkShape { dim : list Dimension }.
Record TypeProto_Tensor : Type := mkTypeTensor {
  elem_type : Z;
  shape : TensorShapeProto
}.
Record TypeProto : Type := mkTypeProto { tensor_type : TypeProto_Tensor }.
Record ValueInfoProto : Type := mkValueInfo {
  vi_name : string;
  vi_type : TypeProto
}.
Record NodeProto : Type := mkNode { op_type : string }.
Record GraphProto : Type := mkGraph {
  input : list ValueInfoProto;
  node : list NodeProto
}.
Record ModelProto : Type := mkModel { graph : GraphProto }.

(** ** ONNXIFI tensor descriptors (onnxifi.h) *)

Definition ONNXIFI_MEMORY_TYPE_CPU : Z := 0.
Definition ONNXIFI_DATATYPE_FLOAT32 : Z := 1.
Definition ONNXIFI_DATATYPE_INT8 : Z := 3.
Definition ONNXIFI_DATATYPE_INT64 : Z := 7.
Definition ONNXIFI_DATATYPE_UINT64 : Z := 13.

(** The caller's raw buffer, seen through the two casts the loader applies:
    [(float * )buffer] and [(int64_t * )buffer]. *)
Record Buffer : Type := mkBuffer {
  as_float : nat → float32;
  as_int64 : nat → Z
}.

Record onnxTensorDescriptorV1 : Type := mkDescriptor {
  name : string;
  dataType : Z;
  memoryType : Z;
  dimensions : nat;
  shape_ptr : nat → N;
  buffer : Buffer
}.

(** ** TypeResolver *)

(** Lines 28-31: [for (auto d : ...dim()) dim.push_back(d.dim_value())]. *)
Definition declared_dims (in_ : TypeProto) : list N :=
  foldl (λ dims d, dims ++ [to_size_t (dim_value d)]) []
        (dim (shape (tensor_type in_))).

Definition setTensorType (in_ : TypeProto) (T : Tensor) : Outcome Tensor :=
  let dims := declared_dims in_ in
  if elem_type (tensor_type in_) =? TensorProto_FLOAT then
    Ret (Tensor_reset FloatTy dims T)
  else if elem_type (tensor_type in_) =? TensorProto_INT64 then
    Ret (Tensor_reset IndexTy dims T)
  else
    Fatal "Only float and index tensors are supported".

(** ** WeightMaterializer *)

(** Lines 61-64: [for (unsigned i = 0; i < in.dimensions; ++i)
    dims.push_back(in.shape[i])].  The entries are [uint64_t]; their
    conversion to a 64-bit [size_t] changes nothing. *)
Definition stated_dims (in_ : onnxTensorDescriptorV1) : list N :=
  foldl (λ dims i, dims ++ [shape_ptr in_ i]) [] (seq 0 (dimensions in_)).

(** Lines 71-73 and 80-82: [for (size_t i = 0; i < TH.size(); ++i)
    TH.raw(i) = data[i]].  [read i] is [data[i]] after its conversion to
    the handle's element type.  [TH.size()] is a [size_t], so the counter
    [i] stays below 2^64 and does not wrap.  The second component is the
    trace of the source indices read, in order. *)
Definition copy_elements (read : nat → Elem) (T : Tensor)
  : Tensor * list nat :=
  foldl (λ '(T', reads) i, (Handle_raw_set i (read i) T', reads ++ [i]))
        (T, []) (seq 0 (N.to_nat (Tensor_size T))).

(** The result is the returned [bool], the tensor behind [T] on return and
    the trace of the reads of [in.buffer]. *)
Definition loadWeight (in_ : onnxTensorDescriptorV1) (T : Tensor)
  : Outcome (bool * Tensor * list nat) :=
  if negb (memoryType in_ =? ONNXIFI_MEMORY_TYPE_CPU) then
    Ret (false, T, [])
  else
    let dims := stated_dims in_ in
    if dataType in_ =? ONNXIFI_DATATYPE_FLOAT32 then
      let '(T', reads) :=
        copy_elements (λ i, FloatElem (as_float (buffer in_) i))
                      (Tensor_reset FloatTy dims T) in
      Ret (true, T', reads)
    else if dataType in_ =? ONNXIFI_DATATYPE_UINT64 then
      let '(T', reads) :=
        copy_elements (λ i, IndexElem (to_size_t (as_int64 (buffer in_) i)))
                      (Tensor_reset IndexTy dims T) in
      Ret (true, T', reads)
    else
      Fatal "Only float and index tensors are supported".

(** ** Operator kinds returned by the inspector ([Kinded::Kind]) *)

Inductive Kind : Type :=
| ConvolutionNodeKind
| ReluNodeKind
| SoftMaxNodeKind.

(** ** The loader *)

(** Modelled from the spec: [Variable] nodes and
    [createAndRememberVariable] (ProtobufLoader is not part of the
    sources).  A NamedVariable is {name, tensor, visibility}; it is created
    once during input registration. *)
Record NamedVariable : Type := mkVariable {
  var_name : string;
  var_tensor : Tensor;
  var_visibility : VisibilityKind
}.

Section Loader.

(** The graph [F] under construction, with whatever the base-class
    loaders keep about it (node table, opset version). *)
Variable Function : Type.

(** [variables] are the variables created so far, in creation order: a
    [Variable *] is an index into it.  [tensors_] owns one fresh
    [Tensor] per entry, so the pointer map is a map to values. *)
Record ModelLoader : Type := mkLoader {
  G_ : Function;
  variables : list NamedVariable;
  onnxNameToInputVars_ : gmap string nat;
  tensors_ : gmap string Tensor
}.

(** [new ModelLoader(F)] *)
Definition ModelLoader_new (F : Function) : ModelLoader :=
  mkLoader F [] ∅ ∅.

(** Collaborators that are declared in other files.  [loadProto] returns
    [true] when the bytes were deserialized ([parse], line 111, gives up
    on [!loadProto(...)]) together with the message it filled in.  The
    three others work on the loader; they may halt on assertions of
    their own, hence their [Outcome]. *)
Variable loadProto : list Byte.byte → bool * ModelProto.
Variable setVersion : ModelProto → ModelLoader → Outcome ModelLoader.
Variable loadNetwork : GraphProto → ModelLoader → Outcome (bool * ModelLoader).
Variable setOutputNodes : GraphProto → ModelLoader → Outcome (bool * ModelLoader).

Definition createAndRememberVariable (nm : string) (T : Tensor)
    (vis : VisibilityKind) (st : ModelLoader) : nat * ModelLoader :=
  (length (variables st),
   mkLoader (G_ st) (variables st ++ [mkVariable nm T vis])
            (onnxNameToInputVars_ st) (tensors_ st)).

(** [onnxNameToInputVars_.try_emplace(nm, var)] *)
Definition try_emplace_input (nm : string) (var : nat) (st : ModelLoader)
  : ModelLoader :=
  match onnxNameToInputVars_ st !! nm with
  | Some _ => st
  | None => mkLoader (G_ st) (variables st)
                     (<[nm := var]> (onnxNameToInputVars_ st)) (tensors_ st)
  end.

(** [tensors_[nm] = T] *)
Definition set_tensor (nm : string) (T : Tensor) (st : ModelLoader)
  : ModelLoader :=
  mkLoader (G_ st) (variables st) (onnxNameToInputVars_ st)
           (<[nm := T]> (tensors_ st)).

(** Lines 45-51, over the inputs still to register. *)
Fixpoint registerInputs (ins : list ValueInfoProto) (st : ModelLoader)
  : Outcome ModelLoader :=
  match ins with
  | [] => Ret st
  | in_ :: rest =>
      T ← setTensorType (vi_type in_) Tensor_new;
      let '(var, st1) :=
        createAndRememberVariable (vi_name in_) T Public st in
      registerInputs rest (try_emplace_input (vi_name in_) var st1)
  end.

Definition loadInputs (net : GraphProto) (st : ModelLoader)
  : Outcome ModelLoader :=
  registerInputs (input net) st.

(** Lines 92-102; the descriptor array and its count are a list. *)
Fixpoint loadWeights (weightDescriptors : list onnxTensorDescriptorV1)
    (st : ModelLoader) : Outcome (bool * ModelLoader) :=
  match weightDescriptors with
  | [] => Ret (true, st)
  | d :: rest =>
      '(ok, T, _) ← loadWeight d Tensor_new;
      if negb ok then Ret (false, st)
      else loadWeights rest (set_tensor (name d) T st)
  end.

(** The result is the returned [unique_ptr<ModelLoader>]. *)
Definition parse (onnxModel : list Byte.byte)
    (weightDescriptors : list onnxTensorDescriptorV1) (F : Function)
  : Outcome (option ModelLoader) :=
  let loader := ModelLoader_new F in
  let '(ok, modelDef) := loadProto onnxModel in
  if negb ok then Ret None else
  loader ← setVersion modelDef loader;
  let graphDef := graph modelDef in
  loader ← loadInputs graphDef loader;
  '(ok, loader) ← loadWeights weightDescriptors loader;
  if negb ok then Ret None else
  '(ok, loader) ← loadNetwork graphDef loader;
  if negb ok then Ret None else
  '(ok, loader) ← setOutputNodes graphDef loader;
  if negb ok then Ret None else
  Ret (Some loader).

(** The result is the returned [unique_ptr<pair>].  Line 138 is
    [if (loadProto(...)) return nullptr;], with no negation: the graph is
    looked at only when [loadProto] returned [false]. *)
Definition parseOperator (onnxModel : list Byte.byte)
  : option (Kind * ElemKind) :=
  let '(ok, modelDef) := loadProto onnxModel in
  if ok then None else
  let graph_ := graph modelDef in
  if negb (length (node graph_) =? 1)%nat then None else
  match node graph_ !! 0%nat with
  | None => None
  | Some node0 =>
      let operation := op_type node0 in
      if String.eqb operation "conv" then
        Some (ConvolutionNodeKind, FloatTy)
      else if String.eqb operation "Relu" then
        Some (ReluNodeKind, FloatTy)
      else if String.eqb operation "Softmax" then
        Some (SoftMaxNodeKind, FloatTy)
      else None
  end.

End Loader.

Arguments mkLoader {Function} G_ variables onnxNameToInputVars_ tensors_.
Arguments G_ {Function} m.
Arguments variables {Function} m.
Arguments onnxNameToInputVars_ {Function} m.
Arguments tensors_ {Function} m.
Arguments ModelLoader_new {Function} F.
Arguments createAndRememberVariable {Function} nm T vis st.
Arguments try_emplace_input {Function} nm var st.
Arguments set_tensor {Function} nm T st.
Arguments registerInputs {Function} ins st.
Arguments loadInputs {Function} net st.
Arguments loadWeights {Function} weightDescriptors st.
Arguments parse {Function} loadProto setVersion loadNetwork setOutputNodes
  onnxModel weightDescriptors F.

(** ** Supported element kinds, as the two if-chains accept them *)

Definition supported_elem_type (ty : Z) : bool :=
  (ty =? TensorProto_FLOAT) || (ty =? TensorProto_INT64).

Definition supported_dataType (ty : Z) : bool :=
  (ty =? ONNXIFI_DATATYPE_FLOAT32) || (ty =? ONNXIFI_DATATYPE_UINT64).

Definition host_addressable (d : onnxTensorDescriptorV1) : bool :=
  memoryType d =? ONNXIFI_MEMORY_TYPE_CPU.

(** A declared dimension is valid when it is a non-negative [int64]. *)
Definition valid_dim (d : Dimension) : bool :=
  (0 <=? dim_value d) && (dim_value d <? 2 ^ 63).

(** The stated shape of a descriptor: the first [dimensions] entries of
    the array behind [shape]. *)
Definition stated_shape (d : onnxTensorDescriptorV1) : list N :=
  shape_ptr d <$> seq 0 (dimensions d).

(** The element-kind conversion of the copy loop, per data type tag. *)
Definition converted (d : onnxTensorDescriptorV1) (i : nat) : Elem :=
  if dataType d =? ONNXIFI_DATATYPE_FLOAT32
  then FloatElem (as_float (buffer d) i)
  else IndexElem (to_size_t (as_int64 (buffer d) i)).

Definition kind_of_dataType (ty : Z) : ElemKind :=
  if ty =? ONNXIFI_DATATYPE_FLOAT32 then FloatTy else IndexTy.

(** The tensor that the copy loop leaves behind for a host-addressable
    descriptor of a supported kind (see [loadWeight_host_supported]). *)
Definition weight_tensor (d : onnxTensorDescriptorV1) : Tensor :=
  mkTensor (mkType (kind_of_dataType (dataType d)) (stated_shape d))
           (converted d <$> seq 0 (N.to_nat (size_t_product (stated_shape d)))).

Definition loadable (d : onnxTensorDescriptorV1) : bool :=
  host_addressable d && supported_dataType (dataType d).

(** The weight table after registering every descriptor of [ws] in order. *)
Definition registered (ws : list onnxTensorDescriptorV1)
    (table : gmap string Tensor) : gmap string Tensor :=
  foldl (λ m d, <[name d := weight_tensor d]> m) table ws.

(** The loader after registering every descriptor of [ws] in order. *)
Definition registered_state {Function : Type}
    (ws : list onnxTensorDescriptorV1) (st : ModelLoader Function)
  : ModelLoader Function :=
  mkLoader (G_ st) (variables st) (onnxNameToInputVars_ st)
           (registered ws (tensors_ st)).

Definition supported_input (in_ : ValueInfoProto) : bool :=
  supported_elem_type (elem_type (tensor_type (vi_type in_))).

(** ** Sample declarations, descriptors and collaborators *)

Module Samples.

Definition ONNXIFI_MEMORY_TYPE_CUDA_BUFFER : Z := 1.

Definition shape_of (l : list N) : nat → N := λ i, nth i l 0%N.

Definition buffer_of (floats ints : list Z) : Buffer :=
  mkBuffer (λ i, F32 (nth i floats 0)) (λ i, nth i ints 0).

Definition type_of (ty : Z) (dims : list Z) : TypeProto :=
  mkTypeProto (mkTypeTensor ty (mkShape (mkDimension <$> dims))).

(** A: float32[2,3] *)
Definition in_A : ValueInfoProto :=
  mkValueInfo "A" (type_of TensorProto_FLOAT [2; 3]).
(** a second declaration of the name A: int64[4] *)
Definition in_A_again : ValueInfoProto :=
  mkValueInfo "A" (type_of TensorProto_INT64 [4]).
Definition in_B : ValueInfoProto :=
  mkValueInfo "B" (type_of TensorProto_INT64 []).

Definition w_float : onnxTensorDescriptorV1 :=
  mkDescriptor "w" ONNXIFI_DATATYPE_FLOAT32 ONNXIFI_MEMORY_TYPE_CPU 2
               (shape_of [2; 3]%N) (buffer_of [10; 11; 12; 13; 14; 15] []).
(** a second descriptor named w *)
Definition w_float_again : onnxTensorDescriptorV1 :=
  mkDescriptor "w" ONNXIFI_DATATYPE_FLOAT32 ONNXIFI_MEMORY_TYPE_CPU 1
               (shape_of [2]%N) (buffer_of [7; 8] []).
Definition w_index : onnxTensorDescriptorV1 :=
  mkDescriptor "idx" ONNXIFI_DATATYPE_UINT64 ONNXIFI_MEMORY_TYPE_CPU 1
               (shape_of [3]%N) (buffer_of [] [-1; 5; 2 ^ 62]).
(** w again, this time resident in device memory *)
Definition w_device : onnxTensorDescriptorV1 :=
  mkDescriptor "w" ONNXIFI_DATATYPE_FLOAT32 ONNXIFI_MEMORY_TYPE_CUDA_BUFFER 1
               (shape_of [2]%N) (buffer_of [7; 8] []).
Definition q_device : onnxTensorDescriptorV1 :=
  mkDescriptor "q" ONNXIFI_DATATYPE_INT8 ONNXIFI_MEMORY_TYPE_CUDA_BUFFER 1
               (shape_of [2]%N) (buffer_of [] []).
Definition q_host : onnxTensorDescriptorV1 :=
  mkDescriptor "q" ONNXIFI_DATATYPE_INT8 ONNXIFI_MEMORY_TYPE_CPU 1
               (shape_of [2]%N) (buffer_of [] []).
(** a stated shape whose product, 2^64 + 2, does not fit a [size_t] *)
Definition w_wrapping : onnxTensorDescriptorV1 :=
  mkDescriptor "big" ONNXIFI_DATATYPE_FLOAT32 ONNXIFI_MEMORY_TYPE_CPU 2
               (shape_of [9223372036854775809; 2]%N)
               (buffer_of [21; 22; 23] []).
Definition idx_signed : onnxTensorDescriptorV1 :=
  mkDescriptor "idx" ONNXIFI_DATATYPE_INT64 ONNXIFI_MEMORY_TYPE_CPU 1
               (shape_of [2]%N) (buffer_of [] [4; 5]).

Definition model_of (ins : list ValueInfoProto) (ops : list string)
  : ModelProto :=
  mkModel (mkGraph ins (mkNode <$> ops)).

Definition relu_model : ModelProto := model_of [in_A] ["Relu"].

(** A stand-in deserializer: the empty buffer is malformed, every other
    buffer decodes to [relu_model]. *)
Definition decode_relu (bytes : list Byte.byte) : bool * ModelProto :=
  match bytes with
  | [] => (false, model_of [] [])
  | _ => (true, relu_model)
  end.

(** Stand-in collaborators over a graph with no state of its own. *)
Definition keep_version (m : ModelProto) (st : ModelLoader unit)
  : Outcome (ModelLoader unit) := Ret st.
Definition build_ok (g : GraphProto) (st : ModelLoader unit)
  : Outcome (bool * ModelLoader unit) := Ret (true, st).
(** resolves outputs when the graph has nodes *)
Definition outputs_ok (g : GraphProto) (st : ModelLoader unit)
  : Outcome (bool * ModelLoader unit) :=
  Ret (negb (length (node g) =? 0)%nat, st).

End Samples.

(** * Properties *)

(** ** Lists built by [push_back] and by indexed writes *)

Lemma foldl_push_back {A B} (f : B → A) (l : list B) (acc : list A) :
  foldl (λ dims x, dims ++ [f x]) acc l = acc ++ (f <$> l).
Proof.
  revert acc. induction l as [|x l IH]; intros acc; simpl.
  - by rewrite app_nil_r.
  - rewrite IH. by rewrite <- app_assoc.
Qed.

Lemma declared_dims_eq (in_ : TypeProto) :
  declared_dims in_ =
  (λ d, to_size_t (dim_value d)) <$> dim (shape (tensor_type in_)).
Proof. unfold declared_dims. by rewrite foldl_push_back. Qed.

Lemma stated_dims_eq (d : onnxTensorDescriptorV1) :
  stated_dims d = stated_shape d.
Proof. unfold stated_dims, stated_shape. by rewrite foldl_push_back. Qed.

Lemma to_size_t_valid (z : Z) :
  0 ≤ z < 2 ^ 63 → Z.of_N (to_size_t z) = z.
Proof.
  intros Hz. unfold to_size_t, size_t_bits.
  rewrite Z.mod_small by lia. lia.
Qed.

(** The [size_t] product is the product modulo 2^64. *)
Lemma foldl_size_t_mul (dims : list N) (a : N) :
  (a < 2 ^ 64)%N →
  foldl size_t_mul a dims = ((a * product dims) mod 2 ^ 64)%N.
Proof.
  revert a. induction dims as [|x dims IH]; intros a Ha; simpl.
  - unfold product. simpl. rewrite N.mul_1_r. by rewrite N.mod_small.
  - rewrite IH by (unfold size_t_mul; apply N.mod_upper_bound; lia).
    unfold size_t_mul, product. simpl.
    rewrite N.Div0.mul_mod_idemp_l. by rewrite N.mul_assoc.
Qed.

Lemma size_t_product_eq (dims : list N) :
  size_t_product dims = (product dims mod 2 ^ 64)%N.
Proof.
  unfold size_t_product. rewrite foldl_size_t_mul by lia.
  by rewrite N.mul_1_l.
Qed.

Lemma size_t_product_le (dims : list N) :
  (size_t_product dims ≤ product dims)%N.
Proof. rewrite size_t_product_eq. apply N.Div0.mod_le. Qed.

Lemma size_t_product_small (dims : list N) :
  (product dims < 2 ^ 64)%N → size_t_product dims = product dims.
Proof. intros H. rewrite size_t_product_eq. by apply N.mod_small. Qed.

(** Writing [read i] at every [i < k] of a buffer of at least [k] cells. *)
Lemma indexed_writes {A} (read : nat → A) (k : nat) (cells : list A) :
  (k ≤ length cells)%nat →
  foldl (λ c i, <[i := read i]> c) cells (seq 0 k) =
  (read <$> seq 0 k) ++ drop k cells.
Proof.
  induction k as [|k IH]; intros Hk.
  - by rewrite drop_0.
  - rewrite seq_S, foldl_app, fmap_app. simpl.
    rewrite IH by lia.
    assert (Hlen : length (read <$> seq 0 k) = k)
      by (by rewrite length_fmap, length_seq).
    rewrite insert_app_r_alt by lia.
    rewrite Hlen, Nat.sub_diag.
    destruct (drop k cells) as [|c rest] eqn:Hd.
    + apply (f_equal length) in Hd. rewrite length_drop in Hd. simpl in Hd. lia.
    + simpl. rewrite <- app_assoc. simpl. do 2 f_equal.
      replace (S k) with (k + 1)%nat by lia.
      by rewrite <- drop_drop, Hd.
Qed.

(** ** The copy loop *)

Lemma copy_elements_fold (read : nat → Elem) (l : list nat) (T : Tensor)
    (reads : list nat) :
  foldl (λ '(T', reads') i, (Handle_raw_set i (read i) T', reads' ++ [i]))
        (T, reads) l =
  (mkTensor (type_ T) (foldl (λ c i, <[i := read i]> c) (data_ T) l),
   reads ++ l).
Proof.
  revert T reads. induction l as [|i l IH]; intros T reads; simpl.
  - rewrite app_nil_r. by destruct T.
  - rewrite IH. simpl. by rewrite <- app_assoc.
Qed.

Lemma copy_elements_spec (read : nat → Elem) (T : Tensor) :
  length (data_ T) = N.to_nat (Tensor_size T) →
  copy_elements read T =
  (mkTensor (type_ T) (read <$> seq 0 (N.to_nat (Tensor_size T))),
   seq 0 (N.to_nat (Tensor_size T))).
Proof.
  intros Hlen. unfold copy_elements.
  rewrite copy_elements_fold, indexed_writes by lia.
  rewrite <- Hlen at 2. by rewrite drop_all, app_nil_r.
Qed.

Lemma Tensor_reset_length (k : ElemKind) (dims : list N) (T : Tensor) :
  length (data_ (Tensor_reset k dims T)) =
  N.to_nat (Tensor_size (Tensor_reset k dims T)).
Proof. unfold Tensor_reset, Tensor_size, Type_size. simpl. by rewrite length_replicate. Qed.

(** ** The weight materializer, case by case *)

Lemma loadWeight_not_host (d : onnxTensorDescriptorV1) (T : Tensor) :
  host_addressable d = false → loadWeight d T = Ret (false, T, []).
Proof. unfold host_addressable, loadWeight. by intros ->. Qed.

Lemma loadWeight_host_supported (d : onnxTensorDescriptorV1) (T : Tensor) :
  loadable d = true →
  loadWeight d T =
  Ret (true, weight_tensor d, seq 0 (N.to_nat (size_t_product (stated_shape d)))).
Proof.
  unfold loadable, host_addressable, supported_dataType, loadWeight.
  intros [Hmem Hty]%andb_prop. rewrite Hmem. simpl.
  rewrite stated_dims_eq.
  unfold weight_tensor, converted, kind_of_dataType.
  destruct (dataType d =? ONNXIFI_DATATYPE_FLOAT32) eqn:Hf.
  - rewrite copy_elements_spec by apply Tensor_reset_length. done.
  - simpl in Hty. rewrite Hty.
    rewrite copy_elements_spec by apply Tensor_reset_length. done.
Qed.

Lemma loadWeight_host_unsupported (d : onnxTensorDescriptorV1) (T : Tensor) :
  host_addressable d = true → supported_dataType (dataType d) = false →
  loadWeight d T = Fatal "Only float and index tensors are supported".
Proof.
  unfold host_addressable, supported_dataType, loadWeight.
  intros -> [-> ->]%orb_false_elim. done.
Qed.

(** ** TypeResolver *)

Lemma valid_dims_resolve (ds : list Dimension) :
  forallb valid_dim ds = true →
  Z.of_N <$> ((λ d, to_size_t (dim_value d)) <$> ds) = dim_value <$> ds.
Proof.
  induction ds as [|d ds IH]; simpl; [done|].
  intros [Hd Hds]%andb_prop. f_equal; [|by apply IH].
  apply to_size_t_valid. unfold valid_dim in Hd.
  apply andb_prop in Hd as [?%Z.leb_le ?%Z.ltb_lt]. lia.
Qed.

(** C8: for a valid type declaration (non-negative dimensions) of a
    supported element kind, [setTensorType] returns a tensor whose shape
    is exactly the declared dimension sequence, in order (the empty
    sequence included), and whose element kind follows the table
    FLOAT -> FloatTy, INT64 -> IndexTy. *)
Theorem setTensorType_resolves (in_ : TypeProto) (T : Tensor) :
  forallb valid_dim (dim (shape (tensor_type in_))) = true →
  supported_elem_type (elem_type (tensor_type in_)) = true →
  ∃ T', setTensorType in_ T = Ret T' ∧
        Z.of_N <$> sizes_ (type_ T') =
          dim_value <$> dim (shape (tensor_type in_)) ∧
        (elem_type (tensor_type in_) = TensorProto_FLOAT →
           elementType_ (type_ T') = FloatTy) ∧
        (elem_type (tensor_type in_) = TensorProto_INT64 →
           elementType_ (type_ T') = IndexTy).
Proof.
  intros Hdims Hsup. unfold setTensorType, supported_elem_type in *.
  rewrite declared_dims_eq.
  destruct (elem_type (tensor_type in_) =? TensorProto_FLOAT) eqn:Hf.
  - eexists. split; [done|]. simpl. split; [by apply valid_dims_resolve|].
    split; [done|]. apply Z.eqb_eq in Hf. rewrite Hf. discriminate.
  - simpl in Hsup. rewrite Hsup. eexists. split; [done|]. simpl.
    split; [by apply valid_dims_resolve|].
    split; [|done]. intros Heq. rewrite Heq in Hf. discriminate.
Qed.

Lemma setTensorType_resolves_witness :
  (∃ T', setTensorType (Samples.type_of TensorProto_FLOAT [2; 3]) Tensor_new
           = Ret T' ∧
         Z.of_N <$> sizes_ (type_ T') = [2; 3] ∧
         elementType_ (type_ T') = FloatTy) ∧
  (∃ T', setTensorType (Samples.type_of TensorProto_INT64 [4])
                       (mkTensor (mkType FloatTy [7%N]) [])
           = Ret T' ∧
         Z.of_N <$> sizes_ (type_ T') = [4] ∧
         elementType_ (type_ T') = IndexTy).
Proof.
  split.
  - destruct (setTensorType_resolves
                (Samples.type_of TensorProto_FLOAT [2; 3]) Tensor_new
                eq_refl eq_refl) as (T' & Hrun & Hshape & Hfloat & _).
    exists T'. split; [exact Hrun|]. split; [exact Hshape|].
    apply Hfloat. reflexivity.
  - destruct (setTensorType_resolves
                (Samples.type_of TensorProto_INT64 [4])
                (mkTensor (mkType FloatTy [7%N]) [])
                eq_refl eq_refl) as (T' & Hrun & Hshape & _ & Hindex).
    exists T'. split; [exact Hrun|]. split; [exact Hshape|].
    apply Hindex. reflexivity.
Defined.

Lemma setTensorType_unsupported (in_ : TypeProto) (T : Tensor) :
  supported_elem_type (elem_type (tensor_type in_)) = false →
  setTensorType in_ T = Fatal "Only float and index tensors are supported".
Proof.
  unfold supported_elem_type, setTensorType.
  intros [-> ->]%orb_false_elim. done.
Qed.

Lemma setTensorType_supported (in_ : TypeProto) (T : Tensor) :
  supported_elem_type (elem_type (tensor_type in_)) = true →
  setTensorType in_ T =
  Ret (Tensor_reset
         (if elem_type (tensor_type in_) =? TensorProto_FLOAT
          then FloatTy else IndexTy)
         (declared_dims in_) T).
Proof.
  unfold supported_elem_type, setTensorType.
  destruct (elem_type (tensor_type in_) =? TensorProto_FLOAT); [done|].
  simpl. by intros ->.
Qed.

(** ** Unsupported element kinds *)

(** C2, as it holds: an element kind outside float32/int64 makes
    [setTensorType] halt, and an element kind outside float32/uint64 makes
    [loadWeight] halt when the descriptor is in CPU memory; a descriptor
    that is not in CPU memory is rejected recoverably whatever its element
    kind; with a supported element kind neither function halts. *)
Theorem unsupported_kind_halts :
  (∀ in_ T, supported_elem_type (elem_type (tensor_type in_)) = false →
     setTensorType in_ T =
     Fatal "Only float and index tensors are supported") ∧
  (∀ d T, host_addressable d = true →
     supported_dataType (dataType d) = false →
     loadWeight d T = Fatal "Only float and index tensors are supported") ∧
  (∀ d T, host_addressable d = false → loadWeight d T = Ret (false, T, [])) ∧
  (∀ in_ T, supported_elem_type (elem_type (tensor_type in_)) = true →
     halted (setTensorType in_ T) = false) ∧
  (∀ d T, supported_dataType (dataType d) = true →
     halted (loadWeight d T) = false).
Proof.
  split; [exact setTensorType_unsupported|].
  split; [exact loadWeight_host_unsupported|].
  split; [exact loadWeight_not_host|].
  split.
  - intros in_ T H. by rewrite setTensorType_supported.
  - intros d T H. destruct (host_addressable d) eqn:Hm.
    + rewrite loadWeight_host_supported; [done|]. unfold loadable. by rewrite Hm, H.
    + by rewrite loadWeight_not_host.
Qed.

Lemma unsupported_kind_halts_witness :
  setTensorType (Samples.type_of 3 [2]) Tensor_new =
    Fatal "Only float and index tensors are supported" ∧
  loadWeight Samples.q_host Tensor_new =
    Fatal "Only float and index tensors are supported" ∧
  loadWeight Samples.q_device Tensor_new = Ret (false, Tensor_new, []) ∧
  halted (setTensorType (Samples.type_of TensorProto_FLOAT [2; 3]) Tensor_new)
    = false ∧
  halted (loadWeight Samples.w_index Tensor_new) = false.
Proof.
  destruct unsupported_kind_halts as (H1 & H2 & H3 & H4 & H5).
  split; [apply H1; reflexivity|].
  split; [apply H2; reflexivity|].
  split; [apply H3; reflexivity|].
  split; [apply H4; reflexivity|apply H5; reflexivity].
Defined.

(** The claim C2 as stated fails: a descriptor of an unsupported element
    kind (INT8) that lives in device memory is rejected recoverably, with
    [false], and nothing halts. *)
Lemma unsupported_kind_on_device_returns_false :
  supported_dataType (dataType Samples.q_device) = false ∧
  loadWeight Samples.q_device Tensor_new = Ret (false, Tensor_new, []) ∧
  halted (loadWeight Samples.q_device Tensor_new) = false.
Proof. repeat split; reflexivity. Qed.

(** ** WeightMaterializer *)

Lemma weight_tensor_lookup (d : onnxTensorDescriptorV1) (i : nat) :
  (i < N.to_nat (size_t_product (stated_shape d)))%nat →
  data_ (weight_tensor d) !! i = Some (converted d i).
Proof.
  intros Hi. unfold weight_tensor. simpl.
  rewrite list_lookup_fmap, lookup_seq_lt by done. done.
Qed.

(** C3, as it holds: for a descriptor of a supported element kind that is
    materialized (CPU memory), with stated shape [s], the tensor has shape
    [s] and its element count is the product of [s] as a [size_t], that
    is modulo 2^64: the product itself whenever it is below 2^64.  Every
    element [i] of the destination below that count is element [i] of the
    source under the conversion of its kind (identity for floats,
    [int64_t] to [size_t] for indices), and the source indices read are
    exactly those below the count, each once. *)
Theorem loadWeight_copies_size_t_product
    (d : onnxTensorDescriptorV1) (T : Tensor) :
  host_addressable d = true →
  supported_dataType (dataType d) = true →
  ∃ T', loadWeight d T = Ret (true, T', seq 0 (N.to_nat (Tensor_size T'))) ∧
        sizes_ (type_ T') = stated_shape d ∧
        Tensor_size T' = (product (stated_shape d) mod 2 ^ 64)%N ∧
        ((product (stated_shape d) < 2 ^ 64)%N →
         Tensor_size T' = product (stated_shape d)) ∧
        length (data_ T') = N.to_nat (Tensor_size T') ∧
        ∀ i, (i < N.to_nat (Tensor_size T'))%nat →
             data_ T' !! i =
             Some (if dataType d =? ONNXIFI_DATATYPE_FLOAT32
                   then FloatElem (as_float (buffer d) i)
                   else IndexElem (to_size_t (as_int64 (buffer d) i))).
Proof.
  intros Hmem Hty. exists (weight_tensor d).
  assert (Hsize : Tensor_size (weight_tensor d) =
                  size_t_product (stated_shape d)) by done.
  rewrite Hsize.
  split; [apply loadWeight_host_supported; unfold loadable; by rewrite Hmem, Hty|].
  split; [done|].
  split; [apply size_t_product_eq|].
  split; [apply size_t_product_small|].
  split; [unfold weight_tensor; simpl; by rewrite length_fmap, length_seq|].
  apply weight_tensor_lookup.
Qed.

Lemma loadWeight_copies_size_t_product_witness :
  ∃ T', loadWeight Samples.w_float Tensor_new =
          Ret (true, T', seq 0 (N.to_nat (Tensor_size T'))) ∧
        sizes_ (type_ T') = stated_shape Samples.w_float ∧
        Tensor_size T' = (product (stated_shape Samples.w_float) mod 2 ^ 64)%N ∧
        ((product (stated_shape Samples.w_float) < 2 ^ 64)%N →
         Tensor_size T' = product (stated_shape Samples.w_float)) ∧
        length (data_ T') = N.to_nat (Tensor_size T') ∧
        ∀ i, (i < N.to_nat (Tensor_size T'))%nat →
             data_ T' !! i =
             Some (if dataType Samples.w_float =? ONNXIFI_DATATYPE_FLOAT32
                   then FloatElem (as_float (buffer Samples.w_float) i)
                   else IndexElem
                          (to_size_t (as_int64 (buffer Samples.w_float) i))).
Proof.
  apply (loadWeight_copies_size_t_product Samples.w_float Tensor_new);
    reflexivity.
Defined.

(** The claim C3 as stated fails: the stated shape [2^63 + 1; 2] has the
    product 2^64 + 2, but the element count is a [size_t]: the tensor has
    2 elements and 2 source elements are read. *)
Lemma loadWeight_element_count_wraps :
  host_addressable Samples.w_wrapping = true ∧
  supported_dataType (dataType Samples.w_wrapping) = true ∧
  product (stated_shape Samples.w_wrapping) = 18446744073709551618%N ∧
  ∃ T', loadWeight Samples.w_wrapping Tensor_new = Ret (true, T', [0; 1]%nat) ∧
        Tensor_size T' = 2%N ∧
        data_ T' = [FloatElem (F32 21); FloatElem (F32 22)].
Proof.
  split; [reflexivity|]. split; [reflexivity|]. split; [reflexivity|].
  eexists. split; [vm_compute; reflexivity|]. split; reflexivity.
Qed.

(** C5, as it holds: a CPU-memory descriptor tagged 32-bit float or 64-bit
    unsigned integer is materialized: a tensor of the stated shape is
    allocated, filled by the element-wise conversion copy, and [true] is
    returned.  A CPU-memory descriptor tagged 64-bit signed integer is not
    materialized: it takes the unsupported-kind branch and halts. *)
Theorem loadWeight_supported_kinds (d : onnxTensorDescriptorV1) (T : Tensor) :
  host_addressable d = true →
  (dataType d = ONNXIFI_DATATYPE_FLOAT32 ∨
   dataType d = ONNXIFI_DATATYPE_UINT64 →
   ∃ T' reads,
     loadWeight d T = Ret (true, T', reads) ∧
     type_ T' = mkType (if dataType d =? ONNXIFI_DATATYPE_FLOAT32
                        then FloatTy else IndexTy) (stated_shape d) ∧
     data_ T' =
       (λ i, if dataType d =? ONNXIFI_DATATYPE_FLOAT32
             then FloatElem (as_float (buffer d) i)
             else IndexElem (to_size_t (as_int64 (buffer d) i)))
       <$> seq 0 (N.to_nat (size_t_product (stated_shape d)))) ∧
  (dataType d = ONNXIFI_DATATYPE_INT64 →
   loadWeight d T = Fatal "Only float and index tensors are supported").
Proof.
  intros Hmem. split.
  - intros Hty. exists (weight_tensor d), (seq 0 (N.to_nat (size_t_product (stated_shape d)))).
    split; [|done].
    apply loadWeight_host_supported. unfold loadable, supported_dataType.
    rewrite Hmem. by destruct Hty as [-> | ->].
  - intros Hty. apply loadWeight_host_unsupported; [done|].
    unfold supported_dataType. by rewrite Hty.
Qed.

Lemma loadWeight_supported_kinds_witness :
  (∃ T' reads,
     loadWeight Samples.w_float Tensor_new = Ret (true, T', reads) ∧
     type_ T' = mkType FloatTy [2; 3]%N ∧
     data_ T' = FloatElem <$> (F32 <$> [10; 11; 12; 13; 14; 15])) ∧
  loadWeight Samples.idx_signed Tensor_new =
    Fatal "Only float and index tensors are supported".
Proof.
  split.
  - apply (proj1 (loadWeight_supported_kinds Samples.w_float Tensor_new
                                             eq_refl)).
    left. reflexivity.
  - apply (proj2 (loadWeight_supported_kinds Samples.idx_signed Tensor_new
                                             eq_refl)).
    reflexivity.
Defined.

(** The claim C5 as stated fails: a CPU-memory descriptor tagged 64-bit
    signed integer halts the process instead of being materialized, and a
    32-bit float descriptor in device memory returns [false]. *)
Lemma signed_int64_descriptor_halts :
  dataType Samples.idx_signed = ONNXIFI_DATATYPE_INT64 ∧
  host_addressable Samples.idx_signed = true ∧
  loadWeight Samples.idx_signed Tensor_new =
    Fatal "Only float and index tensors are supported" ∧
  dataType Samples.w_device = ONNXIFI_DATATYPE_FLOAT32 ∧
  loadWeight Samples.w_device Tensor_new = Ret (false, Tensor_new, []).
Proof. repeat split; reflexivity. Qed.

(** ** The weight table *)

Section WeightTable.

Context {Function : Type}.
Implicit Types (st : ModelLoader Function) (ws : list onnxTensorDescriptorV1).
Implicit Types (d : onnxTensorDescriptorV1) (table : gmap string Tensor).

Lemma loadWeight_false_not_host d T T' reads :
  loadWeight d T = Ret (false, T', reads) → host_addressable d = false.
Proof.
  destruct (host_addressable d) eqn:Hm; [|done].
  destruct (supported_dataType (dataType d)) eqn:Hs.
  - rewrite loadWeight_host_supported; [done|]. unfold loadable. by rewrite Hm, Hs.
  - by rewrite loadWeight_host_unsupported.
Qed.

Lemma loadWeight_true_loadable d T T' reads :
  loadWeight d T = Ret (true, T', reads) → loadable d = true.
Proof.
  unfold loadable. destruct (host_addressable d) eqn:Hm.
  - destruct (supported_dataType (dataType d)) eqn:Hs; [done|].
    by rewrite loadWeight_host_unsupported.
  - by rewrite loadWeight_not_host.
Qed.

Lemma loadWeights_cons_loadable d ws st :
  loadable d = true →
  loadWeights (d :: ws) st =
  loadWeights ws (set_tensor (name d) (weight_tensor d) st).
Proof. intros Hd. simpl. by rewrite loadWeight_host_supported. Qed.

Lemma loadWeights_cons_not_host d ws st :
  host_addressable d = false → loadWeights (d :: ws) st = Ret (false, st).
Proof. intros Hd. simpl. by rewrite loadWeight_not_host. Qed.

Lemma registered_state_nil st : registered_state [] st = st.
Proof. by destruct st. Qed.

Lemma registered_state_cons d ws st :
  registered_state (d :: ws) st =
  registered_state ws (set_tensor (name d) (weight_tensor d) st).
Proof. done. Qed.

(** Every descriptor loadable: all are registered and [true] is returned,
    whatever their names. *)
Lemma loadWeights_loadable ws st :
  forallb loadable ws = true →
  loadWeights ws st = Ret (true, registered_state ws st).
Proof.
  revert st. induction ws as [|d ws IH]; intros st.
  - by rewrite registered_state_nil.
  - intros [Hd Hws]%andb_prop.
    by rewrite loadWeights_cons_loadable, IH, registered_state_cons.
Qed.

Lemma loadWeights_true_inv ws st st' :
  loadWeights ws st = Ret (true, st') →
  forallb loadable ws = true ∧ st' = registered_state ws st.
Proof.
  revert st. induction ws as [|d ws IH]; intros st H.
  - simpl in H. inversion H. by rewrite registered_state_nil.
  - destruct (loadable d) eqn:Hd.
    + rewrite loadWeights_cons_loadable in H by done.
      apply IH in H as [Hws ->]. simpl. by rewrite Hd, Hws.
    + simpl in H. destruct (loadWeight d Tensor_new) as [[[ok T] r]|msg] eqn:Hl;
        simpl in H; [|done].
      destruct ok; simpl in H; [|done].
      apply loadWeight_true_loadable in Hl. congruence.
Qed.

(** The first descriptor that is not in CPU memory, reached through
    loadable ones, ends the loop with [false] and with the registrations
    made so far. *)
Lemma loadWeights_first_failure ws st i d :
  ws !! i = Some d →
  forallb loadable (take i ws) = true →
  host_addressable d = false →
  loadWeights ws st = Ret (false, registered_state (take i ws) st).
Proof.
  revert st i. induction ws as [|d0 ws IH]; intros st i Hi Hpre Hd; [done|].
  destruct i as [|i].
  - simpl in Hi. inversion Hi; subst d0.
    by rewrite loadWeights_cons_not_host, registered_state_nil.
  - simpl in Hi, Hpre. apply andb_prop in Hpre as [Hd0 Hpre].
    rewrite loadWeights_cons_loadable by done.
    rewrite (IH _ i) by done. done.
Qed.

Lemma loadWeights_false_inv ws st st' :
  loadWeights ws st = Ret (false, st') →
  ∃ j d, ws !! j = Some d ∧ host_addressable d = false ∧
         forallb loadable (take j ws) = true ∧
         st' = registered_state (take j ws) st.
Proof.
  revert st. induction ws as [|d ws IH]; intros st H; [done|].
  destruct (loadable d) eqn:Hd.
  - rewrite loadWeights_cons_loadable in H by done.
    apply IH in H as (j & d' & Hj & Hm & Hpre & ->).
    exists (S j), d'. simpl. by rewrite Hd, Hpre.
  - simpl in H. destruct (loadWeight d Tensor_new) as [[[ok T] r]|msg] eqn:Hl;
      simpl in H; [|done].
    destruct ok; simpl in H.
    + apply loadWeight_true_loadable in Hl. congruence.
    + inversion H; subst st'. exists 0%nat, d.
      apply loadWeight_false_not_host in Hl.
      by rewrite registered_state_nil.
Qed.

Lemma registered_snoc ws d table :
  registered (ws ++ [d]) table =
  <[name d := weight_tensor d]> (registered ws table).
Proof. unfold registered. by rewrite foldl_app. Qed.

Lemma registered_absent ws table nm :
  (∀ d, d ∈ ws → name d ≠ nm) →
  registered ws table !! nm = table !! nm.
Proof.
  revert table. induction ws as [|d ws IH]; intros table Hne; [done|].
  unfold registered in *. simpl. rewrite IH.
  - apply lookup_insert_ne. apply Hne. by left.
  - intros d' Hd'. apply Hne. by right.
Qed.

Lemma registered_last ws table i d :
  ws !! i = Some d →
  (∀ j d', (i < j)%nat → ws !! j = Some d' → name d' ≠ name d) →
  registered ws table !! name d = Some (weight_tensor d).
Proof.
  revert table i. induction ws as [|d0 ws IH]; intros table i Hi Hlater; [done|].
  destruct i as [|i].
  - simpl in Hi. inversion Hi; subst d0.
    unfold registered. simpl. fold (registered ws (<[name d:=weight_tensor d]> table)).
    rewrite registered_absent; [by rewrite lookup_insert_eq|].
    intros d' [j Hj]%list_elem_of_lookup. apply (Hlater (S j)); [lia|done].
  - unfold registered. simpl. apply (IH _ i); [done|].
    intros j d' Hlt Hj. apply (Hlater (S j)); [lia|done].
Qed.

Lemma registered_is_Some ws table d :
  d ∈ ws → is_Some (registered ws table !! name d).
Proof.
  induction ws as [|d0 ws IH] using rev_ind; [by intros ?%elem_of_nil|].
  rewrite registered_snoc. intros [Hin | ->%list_elem_of_singleton]%elem_of_app.
  - destruct (decide (name d0 = name d)) as [-> | Hne].
    + rewrite lookup_insert_eq. by eexists.
    + rewrite lookup_insert_ne by done. by apply IH.
  - rewrite lookup_insert_eq. by eexists.
Qed.

End WeightTable.

Section WeightRegistration.

Context {Function : Type}.
Implicit Types (st : ModelLoader Function) (ws : list onnxTensorDescriptorV1).

(** C6, as it holds: registration is the plain assignment
    [tensors_[name] = T].  Descriptors that can be materialized are all
    registered and [loadWeights] returns [true] whatever their names; a
    later descriptor with the same name replaces the earlier tensor, so
    every name ends up with the tensor of the last descriptor carrying
    it. *)
Theorem loadWeights_last_registration_wins ws st :
  forallb loadable ws = true →
  ∃ st', loadWeights ws st = Ret (true, st') ∧
         ∀ i d, ws !! i = Some d →
                (∀ j d', (i < j)%nat → ws !! j = Some d' →
                         name d' ≠ name d) →
                ∃ T reads,
                  loadWeight d Tensor_new = Ret (true, T, reads) ∧
                  tensors_ st' !! name d = Some T.
Proof.
  intros Hws. exists (registered_state ws st).
  split; [by apply loadWeights_loadable|].
  intros i d Hi Hlater.
  exists (weight_tensor d), (seq 0 (N.to_nat (size_t_product (stated_shape d)))).
  split.
  - apply loadWeight_host_supported.
    rewrite forallb_forall in Hws. apply Hws.
    apply list_elem_of_In, list_elem_of_lookup. by exists i.
  - simpl. by apply (registered_last _ _ i).
Qed.

(** C10: when descriptors [0 .. i-1] are materialized and descriptor [i]
    fails (it is not in CPU memory, the one recoverable failure of
    [loadWeight]), [loadWeights] returns [false] at once, and the loader
    state it leaves is the state after registering descriptors
    [0 .. i-1]: each of their names is still in the weight table, with
    the tensor of the last of them that carries the name. *)
Theorem loadWeights_failure_keeps_earlier ws st i d :
  ws !! i = Some d →
  forallb loadable (take i ws) = true →
  host_addressable d = false →
  ∃ st', loadWeights ws st = Ret (false, st') ∧
         loadWeights (take i ws) st = Ret (true, st') ∧
         ∀ j dj, (j < i)%nat → ws !! j = Some dj →
                 is_Some (tensors_ st' !! name dj) ∧
                 ((∀ k dk, (j < k < i)%nat → ws !! k = Some dk →
                           name dk ≠ name dj) →
                  ∃ T reads,
                    loadWeight dj Tensor_new = Ret (true, T, reads) ∧
                    tensors_ st' !! name dj = Some T).
Proof.
  intros Hi Hpre Hd. exists (registered_state (take i ws) st).
  split; [by apply loadWeights_first_failure with d|].
  split; [by apply loadWeights_loadable|].
  intros j dj Hj Hdj.
  assert (Htake : take i ws !! j = Some dj) by (by rewrite lookup_take_lt).
  split.
  - simpl. apply registered_is_Some, list_elem_of_lookup. by exists j.
  - intros Hlater.
    exists (weight_tensor dj), (seq 0 (N.to_nat (size_t_product (stated_shape dj)))).
    split.
    + apply loadWeight_host_supported.
      rewrite forallb_forall in Hpre. apply Hpre.
      apply list_elem_of_In, list_elem_of_lookup. by exists j.
    + simpl. apply (registered_last _ _ j); [done|].
      intros k dk Hk Hdk. apply (Hlater k); [|].
      * split; [done|]. apply lookup_lt_Some in Hdk.
        rewrite length_take in Hdk. lia.
      * apply lookup_take_Some in Hdk. tauto.
Qed.

End WeightRegistration.

Lemma loadWeights_last_registration_wins_witness :
  ∃ st', loadWeights [Samples.w_float; Samples.w_float_again]
                     (ModelLoader_new tt) = Ret (true, st') ∧
         ∀ i d, [Samples.w_float; Samples.w_float_again] !! i = Some d →
                (∀ j d', (i < j)%nat →
                         [Samples.w_float; Samples.w_float_again] !! j
                           = Some d' →
                         name d' ≠ name d) →
                ∃ T reads,
                  loadWeight d Tensor_new = Ret (true, T, reads) ∧
                  tensors_ st' !! name d = Some T.
Proof.
  apply (loadWeights_last_registration_wins
           [Samples.w_float; Samples.w_float_again] (ModelLoader_new tt)).
  reflexivity.
Defined.

(** The claim C6 as stated fails: two descriptors named w, both
    materialized; the second registration replaces the first tensor and
    [loadWeights] reports success. *)
Lemma duplicate_weight_name_overwrites :
  ∃ T1 T2 r1 r2 st1 st2,
    loadWeight Samples.w_float Tensor_new = Ret (true, T1, r1) ∧
    loadWeight Samples.w_float_again Tensor_new = Ret (true, T2, r2) ∧
    name Samples.w_float = name Samples.w_float_again ∧
    T1 ≠ T2 ∧
    loadWeights [Samples.w_float] (ModelLoader_new tt) = Ret (true, st1) ∧
    tensors_ st1 !! "w" = Some T1 ∧
    loadWeights [Samples.w_float; Samples.w_float_again] (ModelLoader_new tt)
      = Ret (true, st2) ∧
    tensors_ st2 !! "w" = Some T2.
Proof.
  eexists _, _, _, _, _, _.
  split; [reflexivity|]. split; [reflexivity|]. split; [reflexivity|].
  split; [discriminate|].
  split; [reflexivity|].
  split; [apply lookup_insert_eq|].
  split; [reflexivity|]. apply lookup_insert_eq.
Qed.

Lemma loadWeights_failure_keeps_earlier_witness :
  ∃ st', loadWeights [Samples.w_float; Samples.w_index; Samples.w_device;
                      Samples.w_float_again] (ModelLoader_new tt)
           = Ret (false, st') ∧
         loadWeights [Samples.w_float; Samples.w_index] (ModelLoader_new tt)
           = Ret (true, st') ∧
         ∀ j dj, (j < 2)%nat →
                 [Samples.w_float; Samples.w_index; Samples.w_device;
                  Samples.w_float_again] !! j = Some dj →
                 is_Some (tensors_ st' !! name dj) ∧
                 ((∀ k dk, (j < k < 2)%nat →
                           [Samples.w_float; Samples.w_index; Samples.w_device;
                            Samples.w_float_again] !! k = Some dk →
                           name dk ≠ name dj) →
                  ∃ T reads,
                    loadWeight dj Tensor_new = Ret (true, T, reads) ∧
                    tensors_ st' !! name dj = Some T).
Proof.
  apply (loadWeights_failure_keeps_earlier
           [Samples.w_float; Samples.w_index; Samples.w_device;
            Samples.w_float_again] (ModelLoader_new tt) 2 Samples.w_device);
    reflexivity.
Defined.

(** ** Input registration *)

Section InputRegistration.

Context {Function : Type}.
Implicit Types (st : ModelLoader Function) (ins : list ValueInfoProto).

Lemma registerInputs_cons in_ ins st T :
  setTensorType (vi_type in_) Tensor_new = Ret T →
  registerInputs (in_ :: ins) st =
  registerInputs ins
    (try_emplace_input (vi_name in_) (length (variables st))
       (mkLoader (G_ st) (variables st ++ [mkVariable (vi_name in_) T Public])
                 (onnxNameToInputVars_ st) (tensors_ st))).
Proof. intros HT. simpl. by rewrite HT. Qed.

Lemma try_emplace_input_variables nm var st :
  variables (try_emplace_input nm var st) = variables st.
Proof. unfold try_emplace_input. by destruct (_ !! nm). Qed.

Lemma try_emplace_input_fresh nm var st :
  onnxNameToInputVars_ st !! nm = None →
  onnxNameToInputVars_ (try_emplace_input nm var st) !! nm = Some var.
Proof.
  intros Hnm. unfold try_emplace_input. rewrite Hnm. simpl.
  apply lookup_insert_eq.
Qed.

Lemma try_emplace_input_present nm nm' var var' st :
  onnxNameToInputVars_ st !! nm = Some var →
  onnxNameToInputVars_ (try_emplace_input nm' var' st) !! nm = Some var.
Proof.
  intros Hnm. unfold try_emplace_input.
  destruct (onnxNameToInputVars_ st !! nm') eqn:Hnm'; [done|]. simpl.
  rewrite lookup_insert_ne; [done|]. congruence.
Qed.

Lemma try_emplace_input_other nm nm' var' st :
  nm' ≠ nm →
  onnxNameToInputVars_ (try_emplace_input nm' var' st) !! nm =
  onnxNameToInputVars_ st !! nm.
Proof.
  intros Hne. unfold try_emplace_input.
  destruct (onnxNameToInputVars_ st !! nm'); [done|]. simpl.
  by rewrite lookup_insert_ne.
Qed.

(** With supported element kinds only, registration runs to its end:
    one variable per declaration, appended in declaration order; entries
    already in the name map stay as they are. *)
Lemma registerInputs_runs ins st :
  forallb supported_input ins = true →
  ∃ st', registerInputs ins st = Ret st' ∧
         (∃ vars, variables st' = variables st ++ vars ∧
                  length vars = length ins) ∧
         (∀ nm var, onnxNameToInputVars_ st !! nm = Some var →
                    onnxNameToInputVars_ st' !! nm = Some var).
Proof.
  revert st. induction ins as [|in_ ins IH]; intros st Hsup.
  - exists st. split; [done|]. split; [|done].
    exists []. by rewrite app_nil_r.
  - simpl in Hsup. apply andb_prop in Hsup as [Hin Hins].
    pose proof (setTensorType_supported (vi_type in_) Tensor_new Hin) as HT.
    rewrite (registerInputs_cons _ _ _ _ HT).
    set (st1 := try_emplace_input _ _ _).
    destruct (IH st1 Hins) as (st' & Hrun & (vars & Hvars & Hlen) & Hkeep).
    exists st'. split; [done|]. split.
    + unfold st1 in Hvars.
      rewrite try_emplace_input_variables in Hvars. simpl in Hvars.
      eexists (_ :: vars). rewrite Hvars, <- app_assoc. simpl.
      split; [done|]. by rewrite Hlen.
    + intros nm var Hnm. apply Hkeep. unfold st1.
      by apply try_emplace_input_present.
Qed.

(** C9: when the same name is declared more than once, the entry of
    [onnxNameToInputVars_] for it is the variable created for the first
    declaration: it is made when that declaration is reached, and no
    later declaration replaces it (every declaration still creates a
    variable of its own). *)
Theorem loadInputs_keeps_first (net : GraphProto) st (i : nat)
    (in_ : ValueInfoProto) :
  forallb supported_input (input net) = true →
  input net !! i = Some in_ →
  (∀ j in', (j < i)%nat → input net !! j = Some in' →
            vi_name in' ≠ vi_name in_) →
  onnxNameToInputVars_ st !! vi_name in_ = None →
  ∃ st' T,
    loadInputs net st = Ret st' ∧
    length (variables st') =
      (length (variables st) + length (input net))%nat ∧
    setTensorType (vi_type in_) Tensor_new = Ret T ∧
    variables st' !! (length (variables st) + i)%nat =
      Some (mkVariable (vi_name in_) T Public) ∧
    onnxNameToInputVars_ st' !! vi_name in_ =
      Some (length (variables st) + i)%nat.
Proof.
  unfold loadInputs. generalize (input net) as ins. clear net.
  intros ins. revert st i.
  induction ins as [|in0 ins IH]; intros st i Hsup Hi Hfirst Hnone; [done|].
  simpl in Hsup. apply andb_prop in Hsup as [Hin0 Hins].
  pose proof (setTensorType_supported (vi_type in0) Tensor_new Hin0) as HT0.
  rewrite (registerInputs_cons _ _ _ _ HT0).
  set (st1 := try_emplace_input _ _ _).
  assert (Hvars1 : variables st1 =
            variables st ++ [mkVariable (vi_name in0) _ Public])
    by (unfold st1; by rewrite try_emplace_input_variables).
  destruct i as [|i].
  - simpl in Hi. inversion Hi; subst in0.
    destruct (registerInputs_runs ins st1 Hins)
      as (st' & Hrun & (vars & Hvars & Hlen) & Hkeep).
    exists st'. eexists. split; [done|].
    rewrite Hvars, Hvars1, !length_app, Hlen. simpl.
    split; [lia|]. split; [exact HT0|]. split.
    + rewrite Nat.add_0_r, <- app_assoc.
      by rewrite lookup_app_r, Nat.sub_diag by lia.
    + apply Hkeep. rewrite Nat.add_0_r. unfold st1.
      by apply try_emplace_input_fresh.
  - simpl in Hi.
    assert (Hne : vi_name in0 ≠ vi_name in_)
      by (apply (Hfirst 0%nat); [lia|done]).
    destruct (IH st1 i Hins Hi) as (st' & T & Hrun & Hlen & HT & Hvar & Hmap).
    + intros j in' Hj Hin'. apply (Hfirst (S j)); [lia|done].
    + unfold st1. by rewrite try_emplace_input_other.
    + exists st', T. split; [done|].
      rewrite Hvars1, length_app in Hlen, Hvar, Hmap. simpl in *.
      split; [lia|]. split; [done|].
      replace (length (variables st) + S i)%nat
        with (length (variables st) + 1 + i)%nat by lia.
      done.
Qed.

End InputRegistration.

Lemma loadInputs_keeps_first_witness :
  ∃ st' T,
    loadInputs (mkGraph [Samples.in_B; Samples.in_A; Samples.in_A_again] [])
               (ModelLoader_new tt) = Ret st' ∧
    length (variables st') = 3%nat ∧
    setTensorType (vi_type Samples.in_A) Tensor_new = Ret T ∧
    variables st' !! 1%nat = Some (mkVariable "A" T Public) ∧
    onnxNameToInputVars_ st' !! "A" = Some 1%nat.
Proof.
  apply (loadInputs_keeps_first
           (mkGraph [Samples.in_B; Samples.in_A; Samples.in_A_again] [])
           (ModelLoader_new tt) 1 Samples.in_A).
  - reflexivity.
  - reflexivity.
  - intros j in' Hj. destruct j as [|j]; [|lia].
    simpl. intros [= <-]. discriminate.
  - reflexivity.
Defined.

(** ** The orchestrator *)

Section Orchestrator.

Context {Function : Type}.
Variable loadProto : list Byte.byte → bool * ModelProto.
Variable setVersion :
  ModelProto → ModelLoader Function → Outcome (ModelLoader Function).
Variable loadNetwork :
  GraphProto → ModelLoader Function → Outcome (bool * ModelLoader Function).
Variable setOutputNodes :
  GraphProto → ModelLoader Function → Outcome (bool * ModelLoader Function).

Local Abbreviation parse' :=
  (parse loadProto setVersion loadNetwork setOutputNodes).

Implicit Types (bytes : list Byte.byte) (F : Function).
Implicit Types (st : ModelLoader Function) (ws : list onnxTensorDescriptorV1).

Lemma parse_malformed bytes ws F m :
  loadProto bytes = (false, m) → parse' bytes ws F = Ret None.
Proof. intros H. unfold parse. by rewrite H. Qed.

(** Once the model is deserialized and the inputs are registered, the
    rest of [parse] is the three fallible stages in sequence. *)
Lemma parse_after_inputs bytes ws F m st0 st1 :
  loadProto bytes = (true, m) →
  setVersion m (ModelLoader_new F) = Ret st0 →
  loadInputs (graph m) st0 = Ret st1 →
  parse' bytes ws F =
  '(ok, st2) ← loadWeights ws st1;
  if negb ok then Ret None else
  '(ok, st3) ← loadNetwork (graph m) st2;
  if negb ok then Ret None else
  '(ok, st4) ← setOutputNodes (graph m) st3;
  if negb ok then Ret None else Ret (Some st4).
Proof.
  intros Hp Hv Hi. unfold parse. rewrite Hp. simpl.
  rewrite Hv. simpl. rewrite Hi. done.
Qed.

Lemma parse_Some_inv bytes ws F loader :
  parse' bytes ws F = Ret (Some loader) →
  ∃ m st0 st1 st2 st3,
    loadProto bytes = (true, m) ∧
    setVersion m (ModelLoader_new F) = Ret st0 ∧
    loadInputs (graph m) st0 = Ret st1 ∧
    loadWeights ws st1 = Ret (true, st2) ∧
    loadNetwork (graph m) st2 = Ret (true, st3) ∧
    setOutputNodes (graph m) st3 = Ret (true, loader).
Proof.
  unfold parse. destruct (loadProto bytes) as [[] m] eqn:Hp; simpl; [|done].
  destruct (setVersion m _) as [st0|] eqn:Hv; simpl; [|done].
  destruct (loadInputs (graph m) st0) as [st1|] eqn:Hi; simpl; [|done].
  destruct (loadWeights ws st1) as [[[] st2]|] eqn:Hw; simpl; [|done..].
  destruct (loadNetwork (graph m) st2) as [[[] st3]|] eqn:Hn; simpl;
    [|done..].
  destruct (setOutputNodes (graph m) st3) as [[[] st4]|] eqn:Ho; simpl;
    [|done..].
  intros [= <-]. by exists m, st0, st1, st2, st3.
Qed.

(** C7: whichever stage fails (deserialization, weight materialization,
    topology construction, output resolution), [parse] returns null; it
    returns a loader exactly when every stage succeeded, and the loader
    is then the state the last stage left. *)
Theorem parse_all_or_nothing bytes ws F :
  (∀ m, loadProto bytes = (false, m) → parse' bytes ws F = Ret None) ∧
  (∀ m st0 st1 st2,
     loadProto bytes = (true, m) →
     setVersion m (ModelLoader_new F) = Ret st0 →
     loadInputs (graph m) st0 = Ret st1 →
     loadWeights ws st1 = Ret (false, st2) →
     parse' bytes ws F = Ret None) ∧
  (∀ m st0 st1 st2 st3,
     loadProto bytes = (true, m) →
     setVersion m (ModelLoader_new F) = Ret st0 →
     loadInputs (graph m) st0 = Ret st1 →
     loadWeights ws st1 = Ret (true, st2) →
     loadNetwork (graph m) st2 = Ret (false, st3) →
     parse' bytes ws F = Ret None) ∧
  (∀ m st0 st1 st2 st3 st4,
     loadProto bytes = (true, m) →
     setVersion m (ModelLoader_new F) = Ret st0 →
     loadInputs (graph m) st0 = Ret st1 →
     loadWeights ws st1 = Ret (true, st2) →
     loadNetwork (graph m) st2 = Ret (true, st3) →
     setOutputNodes (graph m) st3 = Ret (false, st4) →
     parse' bytes ws F = Ret None) ∧
  (∀ loader,
     parse' bytes ws F = Ret (Some loader) ↔
     ∃ m st0 st1 st2 st3,
       loadProto bytes = (true, m) ∧
       setVersion m (ModelLoader_new F) = Ret st0 ∧
       loadInputs (graph m) st0 = Ret st1 ∧
       loadWeights ws st1 = Ret (true, st2) ∧
       loadNetwork (graph m) st2 = Ret (true, st3) ∧
       setOutputNodes (graph m) st3 = Ret (true, loader)).
Proof.
  split; [apply parse_malformed|].
  split.
  { intros m st0 st1 st2 Hp Hv Hi Hw.
    rewrite (parse_after_inputs _ _ _ _ _ _ Hp Hv Hi), Hw. done. }
  split.
  { intros m st0 st1 st2 st3 Hp Hv Hi Hw Hn.
    rewrite (parse_after_inputs _ _ _ _ _ _ Hp Hv Hi), Hw. simpl.
    rewrite Hn. done. }
  split.
  { intros m st0 st1 st2 st3 st4 Hp Hv Hi Hw Hn Ho.
    rewrite (parse_after_inputs _ _ _ _ _ _ Hp Hv Hi), Hw. simpl.
    rewrite Hn. simpl. rewrite Ho. done. }
  intros loader. split; [apply parse_Some_inv|].
  intros (m & st0 & st1 & st2 & st3 & Hp & Hv & Hi & Hw & Hn & Ho).
  rewrite (parse_after_inputs _ _ _ _ _ _ Hp Hv Hi), Hw. simpl.
  rewrite Hn. simpl. rewrite Ho. done.
Qed.

Lemma loadWeights_reaches_failure ws st i d :
  ws !! i = Some d →
  host_addressable d = false →
  (∀ j dj, (j < i)%nat → ws !! j = Some dj →
           supported_dataType (dataType dj) = true) →
  ∃ st', loadWeights ws st = Ret (false, st').
Proof.
  revert st i. induction ws as [|d0 ws IH]; intros st i Hi Hd Hsup; [done|].
  destruct (host_addressable d0) eqn:Hm0.
  - destruct i as [|i]; [simpl in Hi; congruence|].
    rewrite loadWeights_cons_loadable.
    + apply (IH _ i); [done..|].
      intros j dj Hj Hdj. apply (Hsup (S j)); [lia|done].
    + unfold loadable. rewrite Hm0. simpl.
      apply (Hsup 0%nat); [lia|done].
  - rewrite loadWeights_cons_not_host by done. by eexists.
Qed.

(** C4, as it holds: a descriptor [d] of the array that is not in CPU
    memory makes [loadWeight] return [false] without touching the tensor
    or the buffer; [loadWeights] never returns [true] and [parse] never
    returns a loader: it returns null, unless an unsupported element kind
    met earlier halts the process (with supported kinds before [d],
    [parse] does return null).  The tensor of [d] is never registered:
    when [loadWeights] returns [false], the table is the one left by the
    descriptors before the first descriptor that is not in CPU memory (at
    [d] or before it).  The entry under the name of [d] is then the
    tensor of the last of those that carries the name, and is the entry
    from before the call when none of them does. *)
Theorem non_host_descriptor_aborts_load bytes ws F i d :
  ws !! i = Some d →
  host_addressable d = false →
  (∀ T, loadWeight d T = Ret (false, T, [])) ∧
  (∀ st st', loadWeights ws st ≠ Ret (true, st')) ∧
  (parse' bytes ws F = Ret None ∨ ∃ msg, parse' bytes ws F = Fatal msg) ∧
  (∀ m st0 st1,
     loadProto bytes = (true, m) →
     setVersion m (ModelLoader_new F) = Ret st0 →
     loadInputs (graph m) st0 = Ret st1 →
     (∀ j dj, (j < i)%nat → ws !! j = Some dj →
              supported_dataType (dataType dj) = true) →
     parse' bytes ws F = Ret None) ∧
  (∀ st st',
     loadWeights ws st = Ret (false, st') →
     ∃ j dj, (j ≤ i)%nat ∧
             ws !! j = Some dj ∧ host_addressable dj = false ∧
             loadWeights (take j ws) st = Ret (true, st') ∧
             ((∀ k dk, (k < j)%nat → ws !! k = Some dk → name dk ≠ name d) →
              tensors_ st' !! name d = tensors_ st !! name d) ∧
             (∀ k dk, (k < j)%nat → ws !! k = Some dk → name dk = name d →
                (∀ k' dk', (k < k' < j)%nat → ws !! k' = Some dk' →
                           name dk' ≠ name d) →
                ∃ T reads,
                  loadWeight dk Tensor_new = Ret (true, T, reads) ∧
                  tensors_ st' !! name d = Some T)).
Proof.
  intros Hi Hd.
  assert (Hnever : ∀ st st', loadWeights ws st ≠ Ret (true, st')).
  { intros st st' [Hall _]%loadWeights_true_inv.
    rewrite forallb_forall in Hall.
    assert (Hl : loadable d = true).
    { apply Hall, list_elem_of_In, list_elem_of_lookup. by exists i. }
    unfold loadable in Hl. rewrite Hd in Hl. done. }
  split; [intros T; by apply loadWeight_not_host|].
  split; [done|].
  split.
  { destruct (parse' bytes ws F) as [[loader|]|msg] eqn:Hparse;
      [|by left|right; by eexists].
    apply parse_Some_inv in Hparse
      as (m & st0 & st1 & st2 & st3 & _ & _ & _ & Hw & _).
    by apply Hnever in Hw. }
  split.
  { intros m st0 st1 Hp Hv Hin Hsup.
    destruct (loadWeights_reaches_failure ws st1 i d Hi Hd Hsup) as [st' Hw].
    rewrite (parse_after_inputs _ _ _ _ _ _ Hp Hv Hin), Hw. done. }
  intros st st' (j & d' & Hj & Hd' & Hpre & ->)%loadWeights_false_inv.
  assert (Hji : (j ≤ i)%nat).
  { destruct (decide (j ≤ i)%nat) as [|Hgt]; [done|].
    rewrite forallb_forall in Hpre.
    assert (Hl : loadable d = true).
    { apply Hpre, list_elem_of_In, list_elem_of_lookup. exists i.
      rewrite lookup_take_lt by lia. done. }
    unfold loadable in Hl. rewrite Hd in Hl. done. }
  exists j, d'. split; [done|]. split; [done|]. split; [done|].
  split; [by apply loadWeights_loadable|]. split.
  - intros Hfresh. simpl. apply registered_absent.
    intros dk [k Hk]%list_elem_of_lookup.
    apply lookup_take_Some in Hk as [Hk Hlt].
    by apply (Hfresh k).
  - intros k dk Hk Hdk Hname Hlast.
    assert (Htake : take j ws !! k = Some dk) by (by rewrite lookup_take_lt).
    exists (weight_tensor dk),
           (seq 0 (N.to_nat (size_t_product (stated_shape dk)))).
    split.
    + apply loadWeight_host_supported.
      rewrite forallb_forall in Hpre. apply Hpre.
      apply list_elem_of_In, list_elem_of_lookup. by exists k.
    + simpl. rewrite <- Hname. apply (registered_last _ _ k); [done|].
      intros k' dk' Hlt Hdk'. rewrite Hname.
      apply lookup_take_Some in Hdk' as [Hdk' Hk'].
      by apply (Hlast k').
Qed.

End Orchestrator.

Lemma parse_all_or_nothing_witness :
  parse Samples.decode_relu Samples.keep_version Samples.build_ok
        Samples.outputs_ok [] [Samples.w_float] tt = Ret None ∧
  ∃ loader,
    parse Samples.decode_relu Samples.keep_version Samples.build_ok
          Samples.outputs_ok [Byte.x00] [Samples.w_float] tt
      = Ret (Some loader).
Proof.
  split.
  - destruct (parse_all_or_nothing Samples.decode_relu Samples.keep_version
                Samples.build_ok Samples.outputs_ok [] [Samples.w_float] tt)
      as (Hmalformed & _).
    apply (Hmalformed _ eq_refl).
  - destruct (parse_all_or_nothing Samples.decode_relu Samples.keep_version
                Samples.build_ok Samples.outputs_ok [Byte.x00]
                [Samples.w_float] tt)
      as (_ & _ & _ & _ & Hloader).
    eexists. apply Hloader.
    eexists _, _, _, _, _. repeat split; reflexivity.
Defined.

Lemma non_host_descriptor_aborts_load_witness :
  (∀ T, loadWeight Samples.w_device T = Ret (false, T, [])) ∧
  (∀ (st st' : ModelLoader unit),
     loadWeights [Samples.w_float; Samples.w_float_again; Samples.w_device] st
       ≠ Ret (true, st')) ∧
  (parse Samples.decode_relu Samples.keep_version Samples.build_ok
         Samples.outputs_ok [Byte.x00]
         [Samples.w_float; Samples.w_float_again; Samples.w_device] tt
     = Ret None ∨
   ∃ msg,
     parse Samples.decode_relu Samples.keep_version Samples.build_ok
           Samples.outputs_ok [Byte.x00]
           [Samples.w_float; Samples.w_float_again; Samples.w_device] tt
       = Fatal msg) ∧
  (∀ m st0 st1,
     Samples.decode_relu [Byte.x00] = (true, m) →
     Samples.keep_version m (ModelLoader_new tt) = Ret st0 →
     loadInputs (graph m) st0 = Ret st1 →
     (∀ j dj, (j < 2)%nat →
              [Samples.w_float; Samples.w_float_again; Samples.w_device] !! j
                = Some dj →
              supported_dataType (dataType dj) = true) →
     parse Samples.decode_relu Samples.keep_version Samples.build_ok
           Samples.outputs_ok [Byte.x00]
           [Samples.w_float; Samples.w_float_again; Samples.w_device] tt
       = Ret None) ∧
  (∀ (st st' : ModelLoader unit),
     loadWeights [Samples.w_float; Samples.w_float_again; Samples.w_device] st
       = Ret (false, st') →
     ∃ j dj, (j ≤ 2)%nat ∧
             [Samples.w_float; Samples.w_float_again; Samples.w_device] !! j
               = Some dj ∧
             host_addressable dj = false ∧
             loadWeights
               (take j [Samples.w_float; Samples.w_float_again; Samples.w_device])
               st = Ret (true, st') ∧
             ((∀ k dk, (k < j)%nat →
                       [Samples.w_float; Samples.w_float_again; Samples.w_device] !! k
                         = Some dk →
                       name dk ≠ name Samples.w_device) →
              tensors_ st' !! name Samples.w_device =
              tensors_ st !! name Samples.w_device) ∧
             (∀ k dk, (k < j)%nat →
                [Samples.w_float; Samples.w_float_again; Samples.w_device] !! k
                  = Some dk →
                name dk = name Samples.w_device →
                (∀ k' dk', (k < k' < j)%nat →
                           [Samples.w_float; Samples.w_float_again; Samples.w_device] !! k'
                             = Some dk' →
                           name dk' ≠ name Samples.w_device) →
                ∃ T reads,
                  loadWeight dk Tensor_new = Ret (true, T, reads) ∧
                  tensors_ st' !! name Samples.w_device = Some T)).
Proof.
  apply (non_host_descriptor_aborts_load Samples.decode_relu
           Samples.keep_version Samples.build_ok Samples.outputs_ok
           [Byte.x00] [Samples.w_float; Samples.w_float_again; Samples.w_device]
           tt 2 Samples.w_device); reflexivity.
Defined.

(** The claim C4 as stated fails.  With the descriptors w (CPU memory) and
    w again (device memory), [loadWeight] fails recoverably on the second
    and [parse] returns null, yet the weight table that [loadWeights]
    leaves has a tensor registered under the name w.  And with an
    unsupported CPU-memory descriptor in front of the device-memory one,
    the load halts instead of returning. *)
Lemma non_host_descriptor_name_stays_registered :
  host_addressable Samples.w_device = false ∧
  loadWeight Samples.w_device Tensor_new = Ret (false, Tensor_new, []) ∧
  parse Samples.decode_relu Samples.keep_version Samples.build_ok
        Samples.outputs_ok [Byte.x00] [Samples.w_float; Samples.w_device] tt
    = Ret None ∧
  (∃ st' T,
     loadWeights [Samples.w_float; Samples.w_device] (ModelLoader_new tt)
       = Ret (false, st') ∧
     tensors_ st' !! name Samples.w_device = Some T) ∧
  parse Samples.decode_relu Samples.keep_version Samples.build_ok
        Samples.outputs_ok [Byte.x00] [Samples.q_host; Samples.w_device] tt
    = Fatal "Only float and index tensors are supported".
Proof.
  split; [reflexivity|]. split; [reflexivity|]. split; [reflexivity|].
  split; [|reflexivity].
  eexists _, _. split; [reflexivity|]. apply lookup_insert_eq.
Qed.

(** ** The single-operator inspector *)

Section Inspector.

Variable loadProto : list Byte.byte → bool * ModelProto.

(** The lookup table, which [parseOperator] reaches only when
    [loadProto] returned [false]. *)
Lemma parseOperator_not_deserialized bytes m op :
  loadProto bytes = (false, m) →
  node (graph m) = [mkNode op] →
  parseOperator loadProto bytes =
  if String.eqb op "conv" then Some (ConvolutionNodeKind, FloatTy)
  else if String.eqb op "Relu" then Some (ReluNodeKind, FloatTy)
  else if String.eqb op "Softmax" then Some (SoftMaxNodeKind, FloatTy)
  else None.
Proof. intros Hp Hn. unfold parseOperator. by rewrite Hp, Hn. Qed.

Lemma parseOperator_node_count bytes :
  length (node (graph (loadProto bytes).2)) ≠ 1%nat →
  parseOperator loadProto bytes = None.
Proof.
  intros Hn. unfold parseOperator.
  destruct (loadProto bytes) as [[] m]; [done|]. simpl in *.
  by apply Nat.eqb_neq in Hn as ->.
Qed.

Lemma parseOperator_unknown_operator bytes op :
  node (graph (loadProto bytes).2) = [mkNode op] →
  op ≠ "conv" → op ≠ "Relu" → op ≠ "Softmax" →
  parseOperator loadProto bytes = None.
Proof.
  intros Hn H1%String.eqb_neq H2%String.eqb_neq H3%String.eqb_neq.
  unfold parseOperator.
  destruct (loadProto bytes) as [[] m]; [done|]. simpl in *.
  rewrite Hn. simpl. by rewrite H1, H2, H3.
Qed.

(** C1 (the code departs from the claim): for a model that deserializes
    to a graph with exactly one node, named Relu, [parseOperator]
    returns null and not (ReluNodeKind, FloatTy): line 138 returns null
    when [loadProto] reports success. *)
Theorem parseOperator_deserialized_Relu_no_result bytes m :
  loadProto bytes = (true, m) →
  node (graph m) = [mkNode "Relu"] →
  parseOperator loadProto bytes = None.
Proof. intros Hp _. unfold parseOperator. by rewrite Hp. Qed.

End Inspector.

Lemma parseOperator_deserialized_Relu_no_result_witness :
  parseOperator Samples.decode_relu [Byte.x00] = None.
Proof.
  apply (parseOperator_deserialized_Relu_no_result Samples.decode_relu
           [Byte.x00] Samples.relu_model); reflexivity.
Defined.

(** * Further properties of the loader *)

(** ** Type resolution without a validity assumption *)

Lemma to_size_t_mod (z : Z) : Z.of_N (to_size_t z) = z mod 2 ^ 64.
Proof.
  unfold to_size_t, size_t_bits. rewrite Z2N.id; [done|].
  apply Z.mod_pos_bound. lia.
Qed.

(** X1: [setTensorType] rejects no dimension value.  For a supported
    element kind every declared [dim_value] is converted to [size_t], that
    is taken modulo 2^64: a negative dimension [v] becomes the size
    [2^64 + v]. *)
Theorem setTensorType_converts_every_dim (in_ : TypeProto) (T : Tensor) :
  supported_elem_type (elem_type (tensor_type in_)) = true →
  ∃ T', setTensorType in_ T = Ret T' ∧
        Z.of_N <$> sizes_ (type_ T') =
        (λ d, dim_value d mod 2 ^ 64) <$> dim (shape (tensor_type in_)).
Proof.
  intros Hsup. rewrite (setTensorType_supported _ _ Hsup).
  eexists. split; [done|]. simpl. rewrite declared_dims_eq.
  induction (dim (shape (tensor_type in_))) as [|d ds IH]; [done|].
  cbn. f_equal; [apply to_size_t_mod | exact IH].
Qed.

Lemma setTensorType_converts_every_dim_witness :
  ∃ T', setTensorType (Samples.type_of TensorProto_FLOAT [-1; 3]) Tensor_new
          = Ret T' ∧
        Z.of_N <$> sizes_ (type_ T') = [18446744073709551615; 3].
Proof.
  apply (setTensorType_converts_every_dim
           (Samples.type_of TensorProto_FLOAT [-1; 3]) Tensor_new).
  reflexivity.
Defined.

(** ** Input registration *)

Section InputRegistrationMore.

Context {Function : Type}.
Implicit Types (st : ModelLoader Function) (ins : list ValueInfoProto).

Lemma registerInputs_unsupported_head in_ ins st :
  supported_input in_ = false →
  registerInputs (in_ :: ins) st =
  Fatal "Only float and index tensors are supported".
Proof.
  intros Hin. simpl. by rewrite (setTensorType_unsupported _ _ Hin).
Qed.

(** X2: [loadInputs] halts exactly when some declared input has an
    element kind other than FLOAT and INT64; otherwise it returns. *)
Theorem loadInputs_halts_iff_unsupported (net : GraphProto) st :
  halted (loadInputs net st) = negb (forallb supported_input (input net)).
Proof.
  unfold loadInputs. revert st.
  induction (input net) as [|in_ ins IH]; intros st; [done|].
  destruct (supported_input in_) eqn:Hin.
  - rewrite (registerInputs_cons _ _ _ _
               (setTensorType_supported (vi_type in_) Tensor_new Hin)).
    rewrite IH. simpl. by rewrite Hin.
  - rewrite registerInputs_unsupported_head by done. simpl. by rewrite Hin.
Qed.

(** X3: with supported element kinds, [loadInputs] appends exactly one
    variable per declared input, in declaration order; each carries the
    declared name, Public visibility and the tensor that [setTensorType]
    resolves for the declaration. *)
Theorem loadInputs_creates_one_variable_each (net : GraphProto) st :
  forallb supported_input (input net) = true →
  ∃ st' vars,
    loadInputs net st = Ret st' ∧
    variables st' = variables st ++ vars ∧
    Forall2 (λ v in_, var_name v = vi_name in_ ∧
                      var_visibility v = Public ∧
                      setTensorType (vi_type in_) Tensor_new
                        = Ret (var_tensor v))
            vars (input net).
Proof.
  unfold loadInputs. revert st.
  induction (input net) as [|in_ ins IH]; intros st Hsup.
  - exists st, []. rewrite app_nil_r. by repeat split.
  - simpl in Hsup. apply andb_prop in Hsup as [Hin Hins].
    pose proof (setTensorType_supported (vi_type in_) Tensor_new Hin) as HT.
    rewrite (registerInputs_cons _ _ _ _ HT).
    set (st1 := try_emplace_input _ _ _).
    destruct (IH st1 Hins) as (st' & vars & Hrun & Hvars & Hall).
    assert (Hv1 : variables st1 =
                    variables st ++ [mkVariable (vi_name in_) _ Public])
      by (unfold st1; by rewrite try_emplace_input_variables).
    exists st'. eexists (_ :: vars). split; [done|].
    split; [by rewrite Hvars, Hv1, <- app_assoc|].
    by constructor.
Qed.

(** X4: [loadInputs] keeps the name map consistent with the variables: if
    every entry points at a variable that carries the entry's name, the
    same holds afterwards, and every declared input name has an entry. *)
Theorem loadInputs_name_map_consistent (net : GraphProto) st :
  forallb supported_input (input net) = true →
  (∀ nm v, onnxNameToInputVars_ st !! nm = Some v →
           var_name <$> variables st !! v = Some nm) →
  ∃ st',
    loadInputs net st = Ret st' ∧
    (∀ nm v, onnxNameToInputVars_ st' !! nm = Some v →
             var_name <$> variables st' !! v = Some nm) ∧
    (∀ in_, in_ ∈ input net →
            is_Some (onnxNameToInputVars_ st' !! vi_name in_)).
Proof.
  unfold loadInputs. revert st.
  induction (input net) as [|in_ ins IH]; intros st Hsup Hinv.
  - exists st. split; [done|]. split; [done|]. by intros ? ?%elem_of_nil.
  - simpl in Hsup. apply andb_prop in Hsup as [Hin Hins].
    pose proof (setTensorType_supported (vi_type in_) Tensor_new Hin) as HT.
    rewrite (registerInputs_cons _ _ _ _ HT).
    set (st1 := try_emplace_input _ _ _).
    assert (Hv1 : variables st1 =
                    variables st ++ [mkVariable (vi_name in_) _ Public])
      by (unfold st1; by rewrite try_emplace_input_variables).
    assert (Hold : ∀ nm v, onnxNameToInputVars_ st !! nm = Some v →
                           var_name <$> variables st1 !! v = Some nm).
    { intros nm v Hnm. specialize (Hinv nm v Hnm). rewrite Hv1.
      destruct (variables st !! v) as [x|] eqn:Hx; [|done].
      by rewrite (lookup_app_l_Some _ _ _ _ Hx). }
    assert (Hinv1 : ∀ nm v, onnxNameToInputVars_ st1 !! nm = Some v →
                            var_name <$> variables st1 !! v = Some nm).
    { intros nm v. unfold st1 at 1, try_emplace_input. simpl.
      destruct (onnxNameToInputVars_ st !! vi_name in_) eqn:Hhead; simpl.
      - apply Hold.
      - destruct (decide (vi_name in_ = nm)) as [<- | Hne].
        + rewrite lookup_insert_eq. intros [= <-]. rewrite Hv1.
          by rewrite lookup_app_r, Nat.sub_diag by lia.
        + rewrite lookup_insert_ne by done. apply Hold. }
    assert (Hhead : is_Some (onnxNameToInputVars_ st1 !! vi_name in_)).
    { unfold st1, try_emplace_input. simpl.
      destruct (onnxNameToInputVars_ st !! vi_name in_) eqn:Hhead; simpl.
      - rewrite Hhead. by eexists.
      - rewrite lookup_insert_eq. by eexists. }
    destruct (IH st1 Hins Hinv1) as (st' & Hrun & Hinv' & Hcov).
    exists st'. split; [done|]. split; [done|].
    intros in' [-> | Hin']%elem_of_cons; [|by apply Hcov].
    destruct Hhead as [v Hv].
    destruct (registerInputs_runs ins st1 Hins) as (st'' & Hrun' & _ & Hkeep).
    rewrite Hrun in Hrun'. inversion Hrun'; subst st''.
    exists v. by apply Hkeep.
Qed.

End InputRegistrationMore.

Lemma loadInputs_creates_one_variable_each_witness :
  ∃ st' vars,
    loadInputs (mkGraph [Samples.in_B; Samples.in_A] []) (ModelLoader_new tt)
      = Ret st' ∧
    variables st' = variables (ModelLoader_new tt) ++ vars ∧
    Forall2 (λ v in_, var_name v = vi_name in_ ∧
                      var_visibility v = Public ∧
                      setTensorType (vi_type in_) Tensor_new
                        = Ret (var_tensor v))
            vars [Samples.in_B; Samples.in_A].
Proof.
  apply (loadInputs_creates_one_variable_each
           (mkGraph [Samples.in_B; Samples.in_A] []) (ModelLoader_new tt)).
  reflexivity.
Defined.

Lemma loadInputs_name_map_consistent_witness :
  ∃ st',
    loadInputs (mkGraph [Samples.in_A; Samples.in_A_again] [])
               (ModelLoader_new tt) = Ret st' ∧
    (∀ nm v, onnxNameToInputVars_ st' !! nm = Some v →
             var_name <$> variables st' !! v = Some nm) ∧
    (∀ in_, in_ ∈ [Samples.in_A; Samples.in_A_again] →
            is_Some (onnxNameToInputVars_ st' !! vi_name in_)).
Proof.
  apply (loadInputs_name_map_consistent
           (mkGraph [Samples.in_A; Samples.in_A_again] [])
           (ModelLoader_new tt)).
  - reflexivity.
  - intros nm v H. unfold ModelLoader_new in H. simpl in H.
    rewrite lookup_empty in H. discriminate H.
Defined.

(** ** Edge cases of the weight materializer *)

Lemma product_zero (dims : list N) : 0%N ∈ dims → product dims = 0%N.
Proof.
  induction dims as [|x dims IH]; [by intros ?%elem_of_nil|].
  intros [<- | Hin]%elem_of_cons; unfold product in *; simpl; [done|].
  rewrite IH by done. lia.
Qed.

Lemma weight_tensor_ext (d1 d2 : onnxTensorDescriptorV1) :
  dataType d1 = dataType d2 →
  stated_shape d1 = stated_shape d2 →
  (∀ i, (i < N.to_nat (size_t_product (stated_shape d1)))%nat →
        converted d1 i = converted d2 i) →
  weight_tensor d1 = weight_tensor d2.
Proof.
  intros Hty Hshape Hbuf. unfold weight_tensor.
  rewrite <- Hty, <- Hshape. f_equal.
  apply list_fmap_ext. intros i x [-> ?]%lookup_seq. by apply Hbuf.
Qed.

(** X5: a stated dimension of 0 makes the tensor empty: a CPU-memory
    descriptor of a supported kind whose stated shape contains 0 is
    materialized with the stated shape and no element, and nothing is read
    from its buffer. *)
Theorem loadWeight_zero_dimension_reads_nothing
    (d : onnxTensorDescriptorV1) (T : Tensor) :
  host_addressable d = true →
  supported_dataType (dataType d) = true →
  0%N ∈ stated_shape d →
  loadWeight d T =
  Ret (true,
       mkTensor (mkType (if dataType d =? ONNXIFI_DATATYPE_FLOAT32
                         then FloatTy else IndexTy) (stated_shape d)) [],
       []).
Proof.
  intros Hmem Hty Hzero. rewrite loadWeight_host_supported
    by (unfold loadable; by rewrite Hmem, Hty).
  unfold weight_tensor.
  by rewrite size_t_product_eq, (product_zero _ Hzero).
Qed.

Lemma loadWeight_zero_dimension_reads_nothing_witness :
  loadWeight (mkDescriptor "e" ONNXIFI_DATATYPE_UINT64 ONNXIFI_MEMORY_TYPE_CPU
                           2 (Samples.shape_of [4; 0]%N)
                           (Samples.buffer_of [] [9; 9]))
             Tensor_new =
  Ret (true, mkTensor (mkType IndexTy [4; 0]%N) [], []).
Proof.
  apply (loadWeight_zero_dimension_reads_nothing
           (mkDescriptor "e" ONNXIFI_DATATYPE_UINT64 ONNXIFI_MEMORY_TYPE_CPU
                         2 (Samples.shape_of [4; 0]%N)
                         (Samples.buffer_of [] [9; 9]))
           Tensor_new); [reflexivity | reflexivity |].
  apply elem_of_cons. right. apply elem_of_cons. left. reflexivity.
Defined.

(** X6: a descriptor with [dimensions = 0] is a scalar: whatever is behind
    [shape], a CPU-memory descriptor of a supported kind is materialized
    with the empty shape and exactly one element, the converted
    [buffer[0]]. *)
Theorem loadWeight_no_dimensions_is_scalar
    (d : onnxTensorDescriptorV1) (T : Tensor) :
  host_addressable d = true →
  supported_dataType (dataType d) = true →
  dimensions d = 0%nat →
  loadWeight d T =
  Ret (true,
       mkTensor (mkType (if dataType d =? ONNXIFI_DATATYPE_FLOAT32
                         then FloatTy else IndexTy) [])
                [if dataType d =? ONNXIFI_DATATYPE_FLOAT32
                 then FloatElem (as_float (buffer d) 0)
                 else IndexElem (to_size_t (as_int64 (buffer d) 0))],
       [0%nat]).
Proof.
  intros Hmem Hty Hdim. rewrite loadWeight_host_supported
    by (unfold loadable; by rewrite Hmem, Hty).
  unfold weight_tensor, stated_shape. by rewrite Hdim.
Qed.

Lemma loadWeight_no_dimensions_is_scalar_witness :
  loadWeight (mkDescriptor "s" ONNXIFI_DATATYPE_FLOAT32 ONNXIFI_MEMORY_TYPE_CPU
                           0 (Samples.shape_of [5]%N)
                           (Samples.buffer_of [42; 43] []))
             Tensor_new =
  Ret (true, mkTensor (mkType FloatTy []) [FloatElem (F32 42)], [0%nat]).
Proof.
  apply (loadWeight_no_dimensions_is_scalar
           (mkDescriptor "s" ONNXIFI_DATATYPE_FLOAT32 ONNXIFI_MEMORY_TYPE_CPU
                         0 (Samples.shape_of [5]%N)
                         (Samples.buffer_of [42; 43] []))
           Tensor_new); reflexivity.
Defined.

(** X7: [loadWeight] looks at nothing but the memory type, the data type,
    the first [dimensions] entries of [shape] and the first product-of-
    shape elements of [buffer], read as the data type says: two
    descriptors that agree on these give the same outcome, whatever their
    names, the rest of their shape arrays and the rest of their buffers. *)
Theorem loadWeight_reads_only_stated
    (d1 d2 : onnxTensorDescriptorV1) (T : Tensor) :
  memoryType d1 = memoryType d2 →
  dataType d1 = dataType d2 →
  dimensions d1 = dimensions d2 →
  (∀ i, (i < dimensions d1)%nat → shape_ptr d1 i = shape_ptr d2 i) →
  (∀ i, (i < N.to_nat (product (stated_shape d1)))%nat →
        (dataType d1 = ONNXIFI_DATATYPE_FLOAT32 →
         as_float (buffer d1) i = as_float (buffer d2) i) ∧
        (dataType d1 = ONNXIFI_DATATYPE_UINT64 →
         as_int64 (buffer d1) i = as_int64 (buffer d2) i)) →
  loadWeight d1 T = loadWeight d2 T.
Proof.
  intros Hmem Hty Hdim Hshape Hbuf.
  assert (Hs : stated_shape d1 = stated_shape d2).
  { unfold stated_shape. rewrite <- Hdim. apply list_fmap_ext.
    intros i x [-> ?]%lookup_seq. by apply Hshape. }
  destruct (host_addressable d1) eqn:Hh1.
  - assert (Hh2 : host_addressable d2 = true)
      by (unfold host_addressable in *; by rewrite <- Hmem).
    destruct (supported_dataType (dataType d1)) eqn:Hs1.
    + rewrite !loadWeight_host_supported.
      * rewrite <- Hs. do 3 f_equal.
        apply weight_tensor_ext; [exact Hty | exact Hs |].
        intros i Hi. unfold converted. rewrite <- Hty.
        assert (Hi' : (i < N.to_nat (product (stated_shape d1)))%nat)
          by (pose proof (size_t_product_le (stated_shape d1)); lia).
        destruct (Hbuf i Hi') as [Hfloat Hint].
        unfold supported_dataType in Hs1.
        destruct (dataType d1 =? ONNXIFI_DATATYPE_FLOAT32) eqn:Hf.
        -- apply Z.eqb_eq in Hf. by rewrite Hfloat.
        -- simpl in Hs1. apply Z.eqb_eq in Hs1. by rewrite Hint.
      * unfold loadable. by rewrite Hh2, <- Hty, Hs1.
      * unfold loadable. by rewrite Hh1, Hs1.
    + rewrite (loadWeight_host_unsupported d1) by done.
      rewrite (loadWeight_host_unsupported d2); [done..|].
      by rewrite <- Hty.
  - assert (Hh2 : host_addressable d2 = false)
      by (unfold host_addressable in *; by rewrite <- Hmem).
    by rewrite !loadWeight_not_host.
Qed.

Lemma loadWeight_reads_only_stated_witness :
  loadWeight Samples.w_float_again Tensor_new =
  loadWeight (mkDescriptor "other" ONNXIFI_DATATYPE_FLOAT32
                           ONNXIFI_MEMORY_TYPE_CPU 1
                           (Samples.shape_of [2; 77]%N)
                           (Samples.buffer_of [7; 8; 99] [1; 2]))
             Tensor_new.
Proof.
  apply (loadWeight_reads_only_stated Samples.w_float_again
           (mkDescriptor "other" ONNXIFI_DATATYPE_FLOAT32
                         ONNXIFI_MEMORY_TYPE_CPU 1
                         (Samples.shape_of [2; 77]%N)
                         (Samples.buffer_of [7; 8; 99] [1; 2]))
           Tensor_new); try reflexivity.
  - intros i Hi. destruct i as [|i]; [reflexivity | simpl in Hi; lia].
  - intros i Hi. destruct i as [|[|i]].
    + split; [reflexivity | discriminate].
    + split; [reflexivity | discriminate].
    + change (N.to_nat (product (stated_shape Samples.w_float_again)))
        with 2%nat in Hi. lia.
Defined.

(** X8: index weights are stored modulo 2^64.  In a CPU-memory UINT64
    descriptor, an element that reads as the [int64_t] value [v] is stored
    as [v] when [v] is non-negative and as [2^64 + v] when it is negative;
    no value is rejected. *)
Theorem loadWeight_index_value_wraps
    (d : onnxTensorDescriptorV1) (T : Tensor) (i : nat) :
  host_addressable d = true →
  dataType d = ONNXIFI_DATATYPE_UINT64 →
  (i < N.to_nat (size_t_product (stated_shape d)))%nat →
  - 2 ^ 63 ≤ as_int64 (buffer d) i < 2 ^ 63 →
  ∃ T' reads k,
    loadWeight d T = Ret (true, T', reads) ∧
    data_ T' !! i = Some (IndexElem k) ∧
    Z.of_N k = if 0 <=? as_int64 (buffer d) i
               then as_int64 (buffer d) i
               else 2 ^ 64 + as_int64 (buffer d) i.
Proof.
  intros Hmem Hty Hi Hv.
  exists (weight_tensor d), (seq 0 (N.to_nat (size_t_product (stated_shape d)))),
         (to_size_t (as_int64 (buffer d) i)).
  split.
  { apply loadWeight_host_supported. unfold loadable, supported_dataType.
    by rewrite Hmem, Hty. }
  split.
  { rewrite weight_tensor_lookup by done. unfold converted. by rewrite Hty. }
  rewrite to_size_t_mod.
  destruct (0 <=? as_int64 (buffer d) i) eqn:Hsign.
  - apply Z.leb_le in Hsign. apply Z.mod_small. lia.
  - apply Z.leb_gt in Hsign.
    rewrite <- (Z.mod_add _ 1) by lia. rewrite Z.mod_small; lia.
Qed.

Lemma loadWeight_index_value_wraps_witness :
  ∃ T' reads k,
    loadWeight Samples.w_index Tensor_new = Ret (true, T', reads) ∧
    data_ T' !! 0%nat = Some (IndexElem k) ∧
    Z.of_N k = 18446744073709551615.
Proof.
  apply (loadWeight_index_value_wraps Samples.w_index Tensor_new 0).
  - reflexivity.
  - reflexivity.
  - change (N.to_nat (size_t_product (stated_shape Samples.w_index))) with 3%nat. lia.
  - change (as_int64 (buffer Samples.w_index) 0) with (-1). lia.
Defined.

(** ** The weight loop as a whole *)

Section WeightLoop.

Context {Function : Type}.
Implicit Types (st : ModelLoader Function) (ws : list onnxTensorDescriptorV1).

Lemma loadWeights_cons_unsupported d ws st :
  host_addressable d = true →
  supported_dataType (dataType d) = false →
  loadWeights (d :: ws) st =
  Fatal "Only float and index tensors are supported".
Proof. intros Hm Hs. simpl. by rewrite loadWeight_host_unsupported. Qed.

(** X9: [loadWeights] returns [true] exactly when every descriptor is in
    CPU memory and tagged FLOAT32 or UINT64; names play no part. *)
Theorem loadWeights_succeeds_iff_all_loadable ws st :
  (∃ st', loadWeights ws st = Ret (true, st')) ↔
  ∀ d, d ∈ ws →
       memoryType d = ONNXIFI_MEMORY_TYPE_CPU ∧
       (dataType d = ONNXIFI_DATATYPE_FLOAT32 ∨
        dataType d = ONNXIFI_DATATYPE_UINT64).
Proof.
  assert (Hloadable : ∀ d, loadable d = true ↔
            memoryType d = ONNXIFI_MEMORY_TYPE_CPU ∧
            (dataType d = ONNXIFI_DATATYPE_FLOAT32 ∨
             dataType d = ONNXIFI_DATATYPE_UINT64)).
  { intros d. unfold loadable, host_addressable, supported_dataType.
    rewrite andb_true_iff, orb_true_iff, !Z.eqb_eq. done. }
  split.
  - intros [st' [Hall _]%loadWeights_true_inv] d Hd.
    apply Hloadable. rewrite forallb_forall in Hall.
    by apply Hall, list_elem_of_In.
  - intros Hall. exists (registered_state ws st).
    apply loadWeights_loadable, forallb_forall.
    intros d Hd%list_elem_of_In. by apply Hloadable, Hall.
Qed.

(** X10: the first descriptor that cannot be materialized decides the
    outcome.  When it is a CPU-memory descriptor of an unsupported kind,
    [loadWeights] halts, whatever follows it in the array (a device-memory
    descriptor further on included). *)
Theorem loadWeights_halts_at_first_unsupported ws st i d :
  ws !! i = Some d →
  forallb loadable (take i ws) = true →
  host_addressable d = true →
  supported_dataType (dataType d) = false →
  loadWeights ws st = Fatal "Only float and index tensors are supported".
Proof.
  revert st i. induction ws as [|d0 ws IH]; intros st i Hi Hpre Hm Hs; [done|].
  destruct i as [|i].
  - simpl in Hi. inversion Hi; subst d0.
    by apply loadWeights_cons_unsupported.
  - simpl in Hi, Hpre. apply andb_prop in Hpre as [Hd0 Hpre].
    rewrite loadWeights_cons_loadable by done. by apply (IH _ i).
Qed.

(** X11: whenever [loadWeights] returns, with [true] or with [false], the
    graph, the variables and the input-name map are as before, and so is
    every weight-table entry whose name no descriptor carries. *)
Theorem loadWeights_touches_only_named_entries ws st ok st' :
  loadWeights ws st = Ret (ok, st') →
  G_ st' = G_ st ∧
  variables st' = variables st ∧
  onnxNameToInputVars_ st' = onnxNameToInputVars_ st ∧
  ∀ nm, (∀ d, d ∈ ws → name d ≠ nm) →
        tensors_ st' !! nm = tensors_ st !! nm.
Proof.
  intros Hrun.
  assert (Hst' : ∃ j, st' = registered_state (take j ws) st).
  { destruct ok.
    - apply loadWeights_true_inv in Hrun as [_ ->].
      exists (length ws). by rewrite take_ge.
    - apply loadWeights_false_inv in Hrun as (j & _ & _ & _ & _ & ->).
      by exists j. }
  destruct Hst' as [j ->]. repeat split.
  intros nm Hnm. simpl. apply registered_absent.
  intros d [k [Hk _]%lookup_take_Some]%list_elem_of_lookup.
  apply Hnm, list_elem_of_lookup. by exists k.
Qed.

Lemma registered_dom ws (table : gmap string Tensor) :
  dom (registered ws table) = dom table ∪ list_to_set (name <$> ws).
Proof.
  revert table. induction ws as [|d ws IH]; intros table.
  - unfold registered. simpl. by rewrite union_empty_r_L.
  - unfold registered in *. simpl. rewrite IH, dom_insert_L.
    by rewrite (union_comm_L {[name d]}), <- union_assoc_L.
Qed.

(** X12: after a successful [loadWeights] the names in the weight table
    are the names it held before together with the names of all the
    descriptors. *)
Theorem loadWeights_registers_every_name ws st st' :
  loadWeights ws st = Ret (true, st') →
  dom (tensors_ st') = dom (tensors_ st) ∪ list_to_set (name <$> ws).
Proof.
  intros [_ ->]%loadWeights_true_inv. simpl. apply registered_dom.
Qed.

(** X13: loading an array in two parts is loading it at once: the second
    part is loaded from the state the first part left when the first part
    succeeded, and is not looked at when the first part failed. *)
Theorem loadWeights_app ws1 ws2 st :
  loadWeights (ws1 ++ ws2) st =
  match loadWeights ws1 st with
  | Ret (true, st1) => loadWeights ws2 st1
  | Ret (false, st1) => Ret (false, st1)
  | Fatal msg => Fatal msg
  end.
Proof.
  revert st. induction ws1 as [|d ws1 IH]; intros st; [done|].
  simpl. destruct (loadWeight d Tensor_new) as [[[[] T] r]|msg]; simpl.
  - apply IH.
  - done.
  - done.
Qed.

End WeightLoop.

Lemma loadWeights_halts_at_first_unsupported_witness :
  loadWeights [Samples.w_float; Samples.q_host; Samples.w_device]
              (ModelLoader_new tt) =
  Fatal "Only float and index tensors are supported".
Proof.
  apply (loadWeights_halts_at_first_unsupported
           [Samples.w_float; Samples.q_host; Samples.w_device]
           (ModelLoader_new tt) 1 Samples.q_host); reflexivity.
Defined.

Lemma loadWeights_touches_only_named_entries_witness :
  ∃ st', loadWeights [Samples.w_float; Samples.w_device] (ModelLoader_new tt)
           = Ret (false, st') ∧
         G_ st' = tt ∧
         variables st' = [] ∧
         onnxNameToInputVars_ st' = ∅ ∧
         ∀ nm, (∀ d, d ∈ [Samples.w_float; Samples.w_device] → name d ≠ nm) →
               tensors_ st' !! nm = (∅ : gmap string Tensor) !! nm.
Proof.
  eexists. split; [reflexivity|].
  apply (loadWeights_touches_only_named_entries
           [Samples.w_float; Samples.w_device] (ModelLoader_new tt) false).
  reflexivity.
Defined.

Lemma loadWeights_registers_every_name_witness :
  ∃ st', loadWeights [Samples.w_float; Samples.w_index] (ModelLoader_new tt)
           = Ret (true, st') ∧
         dom (tensors_ st') =
         dom (∅ : gmap string Tensor) ∪
         list_to_set (name <$> [Samples.w_float; Samples.w_index]).
Proof.
  eexists. split; [reflexivity|].
  apply (loadWeights_registers_every_name
           [Samples.w_float; Samples.w_index] (ModelLoader_new tt)).
  reflexivity.
Defined.

(** ** What [parse] needs, and what it skips *)

Section InputsHalt.

Context {Function : Type}.
Implicit Types (st : ModelLoader Function) (ins : list ValueInfoProto).

Lemma registerInputs_unsupported ins st :
  forallb supported_input ins = false →
  registerInputs ins st = Fatal "Only float and index tensors are supported".
Proof.
  revert st. induction ins as [|in_ ins IH]; intros st Hsup; [done|].
  destruct (supported_input in_) eqn:Hin.
  - rewrite (registerInputs_cons _ _ _ _
               (setTensorType_supported (vi_type in_) Tensor_new Hin)).
    apply IH. simpl in Hsup. by rewrite Hin in Hsup.
  - by apply registerInputs_unsupported_head.
Qed.

Lemma registerInputs_returns_supported ins st st' :
  registerInputs ins st = Ret st' → forallb supported_input ins = true.
Proof.
  intros Hrun. destruct (forallb supported_input ins) eqn:Hsup; [done|].
  by rewrite registerInputs_unsupported in Hrun.
Qed.

End InputsHalt.

Section OrchestratorMore.

Context {Function : Type}.
Variable loadProto : list Byte.byte → bool * ModelProto.
Variable setVersion :
  ModelProto → ModelLoader Function → Outcome (ModelLoader Function).

Implicit Types (bytes : list Byte.byte) (F : Function).
Implicit Types (st : ModelLoader Function) (ws : list onnxTensorDescriptorV1).
Implicit Types
  (loadNetwork setOutputNodes :
     GraphProto → ModelLoader Function → Outcome (bool * ModelLoader Function)).

(** X14: [parse] returns a loader only for a model that deserializes,
    whose declared inputs all have element kind FLOAT or INT64, and with
    weight descriptors that are all in CPU memory and of kind FLOAT32 or
    UINT64. *)
Theorem parse_success_requirements loadNetwork setOutputNodes
    bytes ws F loader :
  parse loadProto setVersion loadNetwork setOutputNodes bytes ws F
    = Ret (Some loader) →
  ∃ m, loadProto bytes = (true, m) ∧
       (∀ in_, in_ ∈ input (graph m) →
               elem_type (tensor_type (vi_type in_)) = TensorProto_FLOAT ∨
               elem_type (tensor_type (vi_type in_)) = TensorProto_INT64) ∧
       (∀ d, d ∈ ws →
             memoryType d = ONNXIFI_MEMORY_TYPE_CPU ∧
             (dataType d = ONNXIFI_DATATYPE_FLOAT32 ∨
              dataType d = ONNXIFI_DATATYPE_UINT64)).
Proof.
  intros (m & st0 & st1 & st2 & st3 & Hp & _ & Hin & Hw & _)%parse_Some_inv.
  exists m. split; [done|]. split.
  - apply registerInputs_returns_supported in Hin.
    rewrite forallb_forall in Hin.
    intros in_ Hin_%list_elem_of_In. specialize (Hin in_ Hin_).
    unfold supported_input, supported_elem_type in Hin.
    by rewrite orb_true_iff, !Z.eqb_eq in Hin.
  - apply loadWeights_true_inv in Hw as [Hall _].
    rewrite forallb_forall in Hall.
    intros d Hd%list_elem_of_In. specialize (Hall d Hd).
    unfold loadable, host_addressable, supported_dataType in Hall.
    by rewrite andb_true_iff, orb_true_iff, !Z.eqb_eq in Hall.
Qed.

(** X15: a declared input of an unsupported element kind halts [parse]
    as soon as the model is deserialized and its version recorded: the
    weight descriptors and the graph builder are never reached. *)
Theorem parse_halts_on_unsupported_input loadNetwork setOutputNodes
    bytes ws F m st0 :
  loadProto bytes = (true, m) →
  setVersion m (ModelLoader_new F) = Ret st0 →
  forallb supported_input (input (graph m)) = false →
  parse loadProto setVersion loadNetwork setOutputNodes bytes ws F
    = Fatal "Only float and index tensors are supported".
Proof.
  intros Hp Hv Hsup. unfold parse. rewrite Hp. simpl. rewrite Hv. simpl.
  unfold loadInputs. by rewrite registerInputs_unsupported.
Qed.

(** X16: when some weight descriptor cannot be materialized, the outcome
    of [parse] does not depend on the graph builder or on output
    resolution: neither is run. *)
Theorem parse_skips_graph_builder_on_weight_failure
    loadNetwork1 setOutputNodes1 loadNetwork2 setOutputNodes2 bytes ws F :
  forallb loadable ws = false →
  parse loadProto setVersion loadNetwork1 setOutputNodes1 bytes ws F =
  parse loadProto setVersion loadNetwork2 setOutputNodes2 bytes ws F.
Proof.
  intros Hws. unfold parse.
  destruct (loadProto bytes) as [[] m]; simpl; [|done].
  destruct (setVersion m _) as [st0|]; simpl; [|done].
  destruct (loadInputs (graph m) st0) as [st1|]; simpl; [|done].
  destruct (loadWeights ws st1) as [[[] st2]|] eqn:Hw; simpl; [|done..].
  apply loadWeights_true_inv in Hw as [Hall _]. congruence.
Qed.

End OrchestratorMore.

Lemma parse_success_requirements_witness :
  ∃ m, Samples.decode_relu [Byte.x00] = (true, m) ∧
       (∀ in_, in_ ∈ input (graph m) →
               elem_type (tensor_type (vi_type in_)) = TensorProto_FLOAT ∨
               elem_type (tensor_type (vi_type in_)) = TensorProto_INT64) ∧
       (∀ d, d ∈ [Samples.w_float; Samples.w_index] →
             memoryType d = ONNXIFI_MEMORY_TYPE_CPU ∧
             (dataType d = ONNXIFI_DATATYPE_FLOAT32 ∨
              dataType d = ONNXIFI_DATATYPE_UINT64)).
Proof.
  eapply (parse_success_requirements Samples.decode_relu Samples.keep_version
            Samples.build_ok Samples.outputs_ok [Byte.x00]
            [Samples.w_float; Samples.w_index] tt).
  reflexivity.
Defined.

Lemma parse_halts_on_unsupported_input_witness :
  parse (λ _, (true, Samples.model_of
                       [mkValueInfo "X" (Samples.type_of 3 [2])] ["Relu"]))
        Samples.keep_version Samples.build_ok Samples.outputs_ok
        [] [Samples.w_device] tt
    = Fatal "Only float and index tensors are supported".
Proof.
  apply (parse_halts_on_unsupported_input
           (λ _, (true, Samples.model_of
                          [mkValueInfo "X" (Samples.type_of 3 [2])] ["Relu"]))
           Samples.keep_version Samples.build_ok Samples.outputs_ok
           [] [Samples.w_device] tt
           (Samples.model_of [mkValueInfo "X" (Samples.type_of 3 [2])]
                             ["Relu"])
           (ModelLoader_new tt)); reflexivity.
Defined.

Lemma parse_skips_graph_builder_on_weight_failure_witness :
  parse Samples.decode_relu Samples.keep_version Samples.build_ok
        Samples.outputs_ok [Byte.x00] [Samples.w_device] tt =
  parse Samples.decode_relu Samples.keep_version
        (λ _ _, Fatal "graph builder") (λ _ _, Fatal "outputs")
        [Byte.x00] [Samples.w_device] tt.
Proof.
  apply (parse_skips_graph_builder_on_weight_failure Samples.decode_relu
           Samples.keep_version Samples.build_ok Samples.outputs_ok
           (λ _ _, Fatal "graph builder") (λ _ _, Fatal "outputs")
           [Byte.x00] [Samples.w_device] tt).
  reflexivity.
Defined.

(** ** The results of the inspector *)

(** X17: [parseOperator] returns a pair exactly when [loadProto] returned
    [false] and the message it left has one node, whose operator name is
    conv, Relu or Softmax (spelled so); the pair is the kind for that name
    with element kind FloatTy.  No other element kind and no other
    operator kind is ever returned. *)
Theorem parseOperator_result_iff
    (loadProto : list Byte.byte → bool * ModelProto)
    (bytes : list Byte.byte) (r : Kind * ElemKind) :
  parseOperator loadProto bytes = Some r ↔
  ∃ m op, loadProto bytes = (false, m) ∧
          node (graph m) = [mkNode op] ∧
          ((op = "conv" ∧ r = (ConvolutionNodeKind, FloatTy)) ∨
           (op = "Relu" ∧ r = (ReluNodeKind, FloatTy)) ∨
           (op = "Softmax" ∧ r = (SoftMaxNodeKind, FloatTy))).
Proof.
  split.
  - unfold parseOperator.
    destruct (loadProto bytes) as [[] m] eqn:Hp; [done|].
    destruct (node (graph m)) as [|[op] [|n1 rest]] eqn:Hn; simpl; [done| |done].
    intros Hr. exists m, op. split; [done|]. split; [done|].
    destruct (String.eqb op "conv") eqn:H1.
    { apply String.eqb_eq in H1. left. split; congruence. }
    destruct (String.eqb op "Relu") eqn:H2.
    { apply String.eqb_eq in H2. right. left. split; congruence. }
    destruct (String.eqb op "Softmax") eqn:H3; [|done].
    apply String.eqb_eq in H3. right. right. split; congruence.
  - intros (m & op & Hp & Hn & Hcase).
    rewrite (parseOperator_not_deserialized _ _ _ _ Hp Hn).
    destruct Hcase as [[-> ->] | [[-> ->] | [-> ->]]]; reflexivity.
Qed.
